(** * Crop data analyzer: the aggregation pipeline of [crop project.py] and
    [dashboard.py]

    Both scripts are straight-line pandas code over one frame read from
    [crop_yield.csv].  This development embeds the frame operations the two
    scripts use (column access and assignment, boolean indexing, [astype(int)],
    [groupby(...)[...].mean()/sum()], [sort_values], [head], [idxmax], [corr])
    and the script fragments built from them, and proves the properties the
    specification states about them.

    Conventions.
    - A finite float64 is held as the rational it denotes ([Q]); arithmetic on
      it is exact, so binary64 rounding and the infinities are outside the
      model.  [NaN] is pandas' missing value.
    - A pandas exception is a value of [exn]; code that may raise returns
      [result].
    - Orderings, numeric reductions and [corr] are modelled for cells that
      hold numbers or [NaN].  On a text cell the model raises, as pandas does
      for [>], [>=], [<=] and [mean]; what else pandas does with text
      (text minima, concatenating sums, [float('1.5')]) is outside the model.
    - Text is a string of bytes; [int(text)] is modelled for ASCII. *)

From Stdlib Require Import ZArith QArith Qround Qabs Reals Qreals Psatz Lia List Bool String Ascii.
From Stdlib Require Import Sorting.Permutation Sorting.Sorted.
From Stdlib Require OrderedTypeEx.
From stdpp Require Import base option list strings gmap.
Import ListNotations.

Local Open Scope string_scope.
Local Open Scope Z_scope.

(** ** Exceptions and fallible results *)

Inductive exn : Type :=
  | KeyError (key : string)   (* df['c'] with c not a column *)
  | TypeError                 (* an ordering or reduction met a text cell *)
  | ValueError                (* int() of NaN or of non-numeric text, argmax of
                                 an empty sequence, mask of the wrong length *)
  | OverflowError.            (* a Python int beyond int64 stored in an int64 column *)

Inductive result (A : Type) : Type :=
  | Ok (a : A)
  | Raise (e : exn).
Arguments Ok {A} a.
Arguments Raise {A} e.

Definition bind {A B} (m : result A) (k : A -> result B) : result B :=
  match m with
  | Ok a => k a
  | Raise e => Raise e
  end.

Notation "'do' x <- m ;; k" := (bind m (fun x => k))
  (at level 10, x name, m at level 99, k at level 200).

(** [[f(x) for x in xs]], stopping at the first exception. *)
Fixpoint traverse {A B} (f : A -> result B) (xs : list A) : result (list B) :=
  match xs with
  | [] => Ok []
  | x :: xs' => do y <- f x ;; do ys <- traverse f xs' ;; Ok (y :: ys)
  end.

(** ** Cells, rows and frames *)

Inductive cell : Type :=
  | Int (z : Z)          (* element of an int64 column *)
  | Float (q : Q)        (* finite element of a float64 column *)
  | NaN                  (* missing value *)
  | Str (s : string).    (* text, element of an object column *)

(** The number a cell holds, if it holds one. *)
Definition num (c : cell) : option Q :=
  match c with
  | Int z => Some (inject_Z z)
  | Float q => Some q
  | NaN | Str _ => None
  end.

Definition is_text (c : cell) : bool :=
  match c with Str _ => true | _ => false end.

Definition isna (c : cell) : bool :=
  match c with NaN => true | _ => false end.

Definition is_number (c : cell) : bool :=
  match num c with Some _ => true | None => false end.

(** A frame: the column labels in order, and the rows in order, each row
    mapping a column label to its cell. *)
Record DataFrame : Type := mkDF {
  columns : list string;
  rows : list (gmap string cell)
}.

Definition has_column (df : DataFrame) (c : string) : bool :=
  bool_decide (c ∈ columns df).

Definition at_ (r : gmap string cell) (c : string) : cell :=
  default NaN (r !! c).

(** [df[c]] *)
Definition getitem (df : DataFrame) (c : string) : result (list cell) :=
  if has_column df c then Ok (map (fun r => at_ r c) (rows df))
  else Raise (KeyError c).

Fixpoint set_column (c : string) (rs : list (gmap string cell)) (vs : list cell)
  : list (gmap string cell) :=
  match rs, vs with
  | r :: rs', v :: vs' => <[c := v]> r :: set_column c rs' vs'
  | _, _ => []
  end.

(** [df[c] = vs] *)
Definition setitem (df : DataFrame) (c : string) (vs : list cell) : result DataFrame :=
  if negb (length vs =? length (rows df))%nat then Raise ValueError
  else Ok {| columns := if has_column df c then columns df else (columns df ++ [c])%list;
             rows := set_column c (rows df) vs |}.

(** ** Element-wise comparisons of a column with a scalar *)

Definition Qgtb (x y : Q) : bool := negb (Qle_bool x y).
Definition Qgeb (x y : Q) : bool := Qle_bool y x.

(** [c > x], [c >= x], [c <= x]: false on NaN, TypeError on text. *)
Definition cmp_cell (op : Q -> Q -> bool) (x : Q) (c : cell) : result bool :=
  match c with
  | Str _ => Raise TypeError
  | NaN => Ok false
  | _ => Ok (match num c with Some q => op q x | None => false end)
  end.

Definition series_gt (s : list cell) (x : Q) : result (list bool) := traverse (cmp_cell Qgtb x) s.
Definition series_ge (s : list cell) (x : Q) : result (list bool) := traverse (cmp_cell Qgeb x) s.
Definition series_le (s : list cell) (x : Q) : result (list bool) := traverse (cmp_cell Qle_bool x) s.

(** [c == x] for a number x: never raises. *)
Definition eq_num_cell (x : Q) (c : cell) : bool :=
  match num c with Some q => Qeq_bool q x | None => false end.

Definition series_eq (s : list cell) (x : Q) : list bool := map (eq_num_cell x) s.

(** [c == t] for a text t: never raises. *)
Definition eq_str_cell (t : string) (c : cell) : bool :=
  match c with Str s => String.eqb s t | _ => false end.

Definition series_eq_str (s : list cell) (t : string) : list bool := map (eq_str_cell t) s.

(** [a & b] and [~a] on masks. *)
Fixpoint and_ (a b : list bool) : list bool :=
  match a, b with
  | x :: a', y :: b' => (x && y) :: and_ a' b'
  | _, _ => []
  end.

Definition invert (a : list bool) : list bool := map negb a.

Fixpoint select {A} (mask : list bool) (xs : list A) : list A :=
  match mask, xs with
  | b :: mask', x :: xs' => if b then x :: select mask' xs' else select mask' xs'
  | _, _ => []
  end.

(** [df[mask]]: the rows whose mask entry is True; the columns stay. *)
Definition getitem_mask (df : DataFrame) (mask : list bool) : result DataFrame :=
  if negb (length mask =? length (rows df))%nat then Raise ValueError
  else Ok {| columns := columns df; rows := select mask (rows df) |}.

(** ** [astype(int)] *)

Definition int64_min : Z := - 2 ^ 63.
Definition int64_max : Z := 2 ^ 63 - 1.
Definition in_int64 (z : Z) : bool := (int64_min <=? z) && (z <=? int64_max).

(** Rounding toward zero, as a C cast and Python's [int(float)] do. *)
Definition Qtruncate (q : Q) : Z := Z.quot (Qnum q) (Zpos (Qden q)).

(** Python's [int(text)] for ASCII text: surrounding whitespace, one optional
    sign, decimal digits, single underscores between digits. *)
Definition is_space (a : ascii) : bool :=
  let n := nat_of_ascii a in
  ((9 <=? n) && (n <=? 13) || (28 <=? n) && (n <=? 32))%nat.

Definition digit_of (a : ascii) : option Z :=
  let n := nat_of_ascii a in
  if ((48 <=? n) && (n <=? 57))%nat then Some (Z.of_nat n - 48) else None.

Fixpoint lstrip (l : list ascii) : list ascii :=
  match l with
  | a :: l' => if is_space a then lstrip l' else l
  | [] => []
  end.

Definition strip (l : list ascii) : list ascii := rev (lstrip (rev (lstrip l))).

Fixpoint digits (acc : Z) (after_digit : bool) (l : list ascii) : option Z :=
  match l with
  | [] => if after_digit then Some acc else None
  | a :: l' =>
      match digit_of a with
      | Some d => digits (10 * acc + d) true l'
      | None =>
          if Ascii.eqb a "_" && after_digit then
            match l' with [] => None | _ => digits acc false l' end
          else None
      end
  end.

Definition int_of_text (s : string) : result Z :=
  match strip (list_ascii_of_string s) with
  | "-"%char :: l => from_option (fun z => Ok (- z)) (Raise ValueError) (digits 0 false l)
  | "+"%char :: l => from_option Ok (Raise ValueError) (digits 0 false l)
  | l => from_option Ok (Raise ValueError) (digits 0 false l)
  end.

(** Python's [int(x)] on a scalar taken from a column. *)
Definition py_int (c : cell) : result Z :=
  match c with
  | Int z => Ok z
  | Float q => Ok (Qtruncate q)
  | NaN => Raise ValueError
  | Str s => int_of_text s
  end.

(** One element of [s.astype(int)].  A float is truncated; beyond int64 the C
    cast is platform-defined and x86-64 yields the least int64. *)
Definition astype_int_cell (c : cell) : result Z :=
  match c with
  | Int z => Ok z
  | Float q => let z := Qtruncate q in Ok (if in_int64 z then z else int64_min)
  | NaN => Raise ValueError
  | Str s => do z <- int_of_text s ;; if in_int64 z then Ok z else Raise OverflowError
  end.

Definition astype_int (s : list cell) : result (list cell) :=
  do zs <- traverse astype_int_cell s ;; Ok (map Int zs).

(** ** STEP 2 of [crop project.py]: cleaning *)

(** Lines 40-43: [Year] from [Crop_Year], else from [Year], else nothing. *)
Definition convert_year (df : DataFrame) : result DataFrame :=
  if has_column df "Crop_Year" then
    do s <- getitem df "Crop_Year" ;; do v <- astype_int s ;; setitem df "Year" v
  else if has_column df "Year" then
    do s <- getitem df "Year" ;; do v <- astype_int s ;; setitem df "Year" v
  else Ok df.

(** Line 56: [df[(df['Area'] > 0) & (df['Production'] == 0)]]. *)
Definition outliers (df : DataFrame) : result DataFrame :=
  do area <- getitem df "Area" ;;
  do pos <- series_gt area 0 ;;
  do prod <- getitem df "Production" ;;
  getitem_mask df (and_ pos (series_eq prod 0)).

(** Lines 55-58: drop the rows with a positive area and a zero production, when
    both columns exist.  The script first builds [outliers] to print its
    length, the first component here; lines 23-24 of [dashboard.py] are the
    same step without that report. *)
Definition remove_outliers_report (df : DataFrame) : result (option nat * DataFrame) :=
  if has_column df "Area" && has_column df "Production" then
    do found <- outliers df ;;
    do area <- getitem df "Area" ;;
    do pos <- series_gt area 0 ;;
    do prod <- getitem df "Production" ;;
    do kept <- getitem_mask df (invert (and_ pos (series_eq prod 0))) ;;
    Ok (Some (length (rows found)), kept)
  else Ok (None, df).

Definition remove_outliers (df : DataFrame) : result DataFrame :=
  do p <- remove_outliers_report df ;; Ok (snd p).

(** The cleaning step of the script.  Lines 46-49 retype State, Crop and Season
    as categories; no cell changes, so the step is the identity here. *)
Definition clean (df : DataFrame) : result DataFrame :=
  do df1 <- convert_year df ;; remove_outliers df1.

(** ** [load_data] of [dashboard.py], lines 15-26, after [read_csv] *)

Definition load_data (df : DataFrame) : result DataFrame :=
  do df1 <- (if has_column df "Crop_Year" then
               do s <- getitem df "Crop_Year" ;; do v <- astype_int s ;; setitem df "Year" v
             else Ok df) ;;
  remove_outliers df1.

(** A row as the removal mask sees it. *)
Definition area_positive (r : gmap string cell) : bool :=
  match num (at_ r "Area") with Some q => Qgtb q 0 | None => false end.
Definition production_zero (r : gmap string cell) : bool :=
  eq_num_cell 0 (at_ r "Production").
Definition is_outlier (r : gmap string cell) : bool :=
  area_positive r && production_zero r.

(** The two records of the specification's cleaning example. *)
Definition record_A : gmap string cell :=
  {[ "State" := Str "A"; "Area" := Int 10; "Production" := Int 0 ]}.
Definition record_B : gmap string cell :=
  {[ "State" := Str "B"; "Area" := Int 5; "Production" := Int 20 ]}.
Definition two_records : DataFrame :=
  {| columns := ["State"; "Area"; "Production"]; rows := [record_A; record_B] |}.

(** ** Reductions of a column *)

(** The numbers of a column, missing values skipped ([skipna=True]). *)
Fixpoint dropna (s : list cell) : result (list cell) :=
  match s with
  | [] => Ok []
  | Str _ :: _ => Raise TypeError
  | NaN :: s' => dropna s'
  | c :: s' => do vs <- dropna s' ;; Ok (c :: vs)
  end.

Definition value (c : cell) : Q := default 0%Q (num c).

Definition Qltb (x y : Q) : bool := negb (Qle_bool y x).

Definition cell_min (a b : cell) : cell := if Qltb (value b) (value a) then b else a.
Definition cell_max (a b : cell) : cell := if Qltb (value a) (value b) then b else a.

(** [s.min()] and [s.max()]: NaN when no number is left. *)
Definition reduce (pick : cell -> cell -> cell) (s : list cell) : result cell :=
  do vs <- dropna s ;;
  Ok (match vs with
      | [] => NaN
      | v :: vs' => fold_left pick vs' v
      end).

Definition series_min : list cell -> result cell := reduce cell_min.
Definition series_max : list cell -> result cell := reduce cell_max.

(** ** The sidebar filters of [dashboard.py] *)

(** Lines 46-48: the bounds of the year slider, which are also its default
    selection. *)
Definition year_bounds (df : DataFrame) : result (Z * Z) :=
  do y <- getitem df "Year" ;;
  do lo <- series_min y ;;
  do min_year <- py_int lo ;;
  do y' <- getitem df "Year" ;;
  do hi <- series_max y' ;;
  do max_year <- py_int hi ;;
  Ok (min_year, max_year).

(** [filtered_df[filtered_df[c] == selected]] *)
Definition filter_eq (df : DataFrame) (c selected : string) : result DataFrame :=
  do s <- getitem df c ;; getitem_mask df (series_eq_str s selected).

(** Lines 51-62.  A selection of "All States", "All Crops" or "All Seasons"
    leaves the corresponding filter out. *)
Definition apply_filters (df : DataFrame)
    (selected_state selected_crop selected_season : string) (year_range : Z * Z)
  : result DataFrame :=
  let filtered_df := df in
  do filtered_df <- (if negb (String.eqb selected_state "All States")
                     then filter_eq filtered_df "State" selected_state
                     else Ok filtered_df) ;;
  do filtered_df <- (if negb (String.eqb selected_crop "All Crops")
                     then filter_eq filtered_df "Crop" selected_crop
                     else Ok filtered_df) ;;
  do filtered_df <- (if negb (String.eqb selected_season "All Seasons")
                     then filter_eq filtered_df "Season" selected_season
                     else Ok filtered_df) ;;
  do y <- getitem filtered_df "Year" ;;
  do from <- series_ge y (inject_Z (fst year_range)) ;;
  do y' <- getitem filtered_df "Year" ;;
  do upto <- series_le y' (inject_Z (snd year_range)) ;;
  getitem_mask filtered_df (and_ from upto).

(** A small frame with the columns of [crop_yield.csv] that the scripts read. *)
Definition record (state crop season : string) (year : Z)
    (area production annual_rainfall yield : cell) : gmap string cell :=
  {[ "Crop" := Str crop; "Crop_Year" := Int year; "Season" := Str season;
     "State" := Str state; "Area" := area; "Production" := production;
     "Annual_Rainfall" := annual_rainfall; "Yield" := yield ]}.

Definition sample_csv : DataFrame :=
  {| columns := ["Crop"; "Crop_Year"; "Season"; "State"; "Area"; "Production";
                 "Annual_Rainfall"; "Yield"];
     rows := [ record "Assam" "Rice" "Kharif" 1997 (Float 100) (Int 200) (Float 2051) (Float 2);
               record "Assam" "Maize" "Rabi" 1998 (Float 10) (Int 0) (Float 1800) (Float 0);
               record "Bihar" "Rice" "Kharif" 1998 (Float 50) (Int 200) (Float 1200) (Float 4);
               record "Bihar" "Wheat" "Rabi" 1999 (Float 40) (Int 160) (Float 1100) NaN;
               record "Kerala" "Rice" "Kharif" 1999 (Float 20) (Int 80) (Float 3000) (Float 4) ] |}.

(** [sample_csv] after [load_data]. *)
Definition sample : DataFrame :=
  Eval vm_compute in
    match load_data sample_csv with
    | Ok df => df
    | Raise _ => sample_csv
    end.

(** ** Grouped aggregates *)

(** A labelled column, as [groupby(...)[...].mean()] returns it: the index
    label and the value of each entry, in order. *)
Abbreviation Series := (list (cell * cell)).

(** The order pandas gives group labels: numbers by value, then text by code
    point; the same label compares [Eq]. *)
Definition key_compare (a b : cell) : comparison :=
  match a, b with
  | Str s, Str t => String.compare s t
  | Str _, _ => Gt
  | _, Str _ => Lt
  | NaN, NaN => Eq
  | NaN, _ => Gt
  | _, NaN => Lt
  | _, _ => Qcompare (value a) (value b)
  end.

Definition key_eqb (a b : cell) : bool :=
  match key_compare a b with Eq => true | _ => false end.

Fixpoint insert_key (k : cell) (l : list cell) : list cell :=
  match l with
  | [] => [k]
  | x :: l' =>
      match key_compare k x with
      | Lt => k :: l
      | Eq => l
      | Gt => x :: insert_key k l'
      end
  end.

(** The group labels: the distinct values of the key column, NaN dropped
    ([dropna=True]), sorted ([sort=True]). *)
Definition group_keys (ks : list cell) : list cell :=
  fold_left (fun acc k => if isna k then acc else insert_key k acc) ks [].

(** The cells of [vs] on the rows whose key is [k]. *)
Fixpoint group_values (ks vs : list cell) (k : cell) : list cell :=
  match ks, vs with
  | x :: ks', v :: vs' =>
      if key_eqb x k then v :: group_values ks' vs' k else group_values ks' vs' k
  | _, _ => []
  end.

Definition Qsum (l : list Q) : Q := fold_right Qplus 0%Q l.

(** [s.mean()]: the missing values are skipped; NaN when nothing is left. *)
Definition series_mean (s : list cell) : result cell :=
  do vs <- dropna s ;;
  Ok (match vs with
      | [] => NaN
      | _ => Float (Qsum (map value vs) / inject_Z (Z.of_nat (length vs)))
      end).

(** [s.sum()]: the missing values are skipped; 0 when nothing is left. *)
Definition series_sum (s : list cell) : result cell :=
  do vs <- dropna s ;; Ok (Float (Qsum (map value vs))).

(** [df.groupby(key)[metric].agg()] *)
Definition groupby_agg (agg : list cell -> result cell)
    (df : DataFrame) (key metric : string) : result Series :=
  do ks <- getitem df key ;;
  do vs <- getitem df metric ;;
  traverse (fun k => do v <- agg (group_values ks vs k) ;; Ok (k, v)) (group_keys ks).


Definition groupby_mean : DataFrame -> string -> string -> result Series := groupby_agg series_mean.
Definition groupby_sum : DataFrame -> string -> string -> result Series := groupby_agg series_sum.

(** ** Ranking: [sort_values(ascending=False).head(10)] *)









(** ** "Best" queries: [idxmax] *)

Fixpoint argmax (best : option (cell * Q)) (s : Series) : option (cell * Q) :=
  match s with
  | [] => best
  | (k, v) :: s' =>
      match num v, best with
      | None, _ => argmax best s'
      | Some q, None => argmax (Some (k, q)) s'
      | Some q, Some (_, b) => if Qltb b q then argmax (Some (k, q)) s' else argmax best s'
      end
  end.

(** [s.idxmax()] in pandas 2: the label of the first greatest value, missing
    values skipped; ValueError on an empty series; NaN, with a FutureWarning,
    when every value is missing. *)
Definition idxmax (s : Series) : result cell :=
  match s with
  | [] => Raise ValueError
  | _ =>
      if existsb is_text (map snd s) then Raise TypeError
      else Ok (match argmax None s with Some (k, _) => k | None => NaN end)
  end.

(** Lines 199-206 of the script. *)
Definition best_state (df : DataFrame) : result (cell * cell) :=
  do agg <- groupby_mean df "State" "Yield" ;;
  do best_state <- idxmax agg ;;
  do agg' <- groupby_mean df "State" "Yield" ;;
  do best_yield <- series_max (map snd agg') ;;
  Ok (best_state, best_yield).

Definition best_season (df : DataFrame) : result cell :=
  do agg <- groupby_sum df "Season" "Production" ;; idxmax agg.

(** Lines 234-235 of the dashboard. *)
Definition best_crop (df : DataFrame) : result (cell * cell) :=
  do agg <- groupby_mean df "Crop" "Yield" ;;
  do best_crop <- idxmax agg ;;
  do agg' <- groupby_mean df "Crop" "Yield" ;;
  do best_crop_yield <- series_max (map snd agg') ;;
  Ok (best_crop, best_crop_yield).

(** [k] is a label of [agg] whose value no value of [agg] exceeds. *)
Definition is_best (agg : Series) (k : cell) : Prop :=
  exists v q, In (k, v) agg /\ num v = Some q /\
    forall k' v' q', In (k', v') agg -> num v' = Some q' -> (q' <= q)%Q.

Definition has_number (agg : Series) : Prop :=
  exists k v, In (k, v) agg /\ is_number v = true.



(** ** Pearson correlation: [a.corr(b)] *)


(** The rows on which both columns hold a number ([notna(a) & notna(b)]).  The
    columns are first converted to float, which text does not survive. *)
Fixpoint valid_pairs (a b : list cell) : result (list (Q * Q)) :=
  match a, b with
  | x :: a', y :: b' =>
      if is_text x || is_text y then Raise ValueError
      else
        do ps <- valid_pairs a' b' ;;
        Ok (match num x, num y with
            | Some p, Some q => (p, q) :: ps
            | _, _ => ps
            end)
  | _, _ => Ok []
  end.

(** The sample covariance ([ddof=1]) of the pairs; by Rocq's convention a
    division by zero yields zero, and [pearson] below never uses the quotient of
    fewer than two pairs. *)
Definition covariance (ps : list (Q * Q)) : Q :=
  let n := inject_Z (Z.of_nat (length ps)) in
  let mx := (Qsum (map fst ps) / n)%Q in
  let my := (Qsum (map snd ps) / n)%Q in
  (Qsum (map (fun p => (fst p - mx) * (snd p - my)) ps) / (n - 1))%Q.

Definition variance (xs : list Q) : Q := covariance (map (fun x => (x, x)) xs).

Definition clip (lo hi x : R) : R := Rmax lo (Rmin hi x).

(** [np.corrcoef(x, y)[0, 1]]: the covariance divided by both standard
    deviations and clipped to [-1, 1]; NaN ([None]) where numpy divides zero by
    zero, that is with fewer than two pairs or a column without variance. *)
Definition pearson (ps : list (Q * Q)) : option R :=
  let c_xx := variance (map fst ps) in
  let c_yy := variance (map snd ps) in
  let c_xy := covariance ps in
  if (length ps <? 2)%nat then None
  else if Qeq_bool c_xx 0 || Qeq_bool c_yy 0 then None
  else Some (clip (-1) 1 (Q2R c_xy / sqrt (Q2R c_xx) / sqrt (Q2R c_yy)))%R.

Definition corr (a b : list cell) : result (option R) :=
  do ps <- valid_pairs a b ;; Ok (pearson ps).

(** Line 152 and line 209 of the script, lines 184 and 239 of the dashboard:
    [df['Annual_Rainfall'].corr(df['Yield'])]. *)
Definition corr_columns (df : DataFrame) (c1 c2 : string) : result (option R) :=
  do a <- getitem df c1 ;;
  do b <- getitem df c2 ;;
  corr a b.

Definition rainfall_corr (df : DataFrame) : result (option R) :=
  corr_columns df "Annual_Rainfall" "Yield".


Definition numeric_column (df : DataFrame) (c : string) : Prop :=
  has_column df c = true /\ Forall (fun r => is_text (at_ r c) = false) (rows df).

(** ** The rainfall insight *)

Inductive impact : Type :=
  | positive_impact    (* "Rainfall has a positive impact on crop yield" *)
  | negative_impact    (* "Too much rainfall may reduce crop yield" *)
  | minimal_impact.    (* "Rainfall has minimal impact on crop yield" *)

(** [x > t] and [x < t] on a float that may be NaN: NaN compares False. *)
Definition float_gt (x : option R) (t : R) : bool :=
  match x with
  | Some c => if Rlt_dec t c then true else false
  | None => false
  end.

Definition float_lt (x : option R) (t : R) : bool :=
  match x with
  | Some c => if Rlt_dec c t then true else false
  | None => false
  end.

(** Lines 210-215 of the script, lines 240-245 of the dashboard. *)
Definition rainfall_impact (rainfall_corr : option R) : impact :=
  if float_gt rainfall_corr (3 / 10)%R then positive_impact
  else if float_lt rainfall_corr (- (3 / 10))%R then negative_impact
  else minimal_impact.

Definition rainfall_insight (df : DataFrame) : result impact :=
  do c <- rainfall_corr df ;; Ok (rainfall_impact c).

(** Lines 219-247 of the dashboard: the three queries and the rainfall insight
    run only on a frame with rows; otherwise the page shows "No data available
    for the selected filters." *)
Inductive insights : Type :=
  | Best (state : cell * cell) (season : cell) (crop : cell * cell) (rainfall : impact)
  | NoData.

Definition key_insights (filtered_df : DataFrame) : result insights :=
  if (0 <? length (rows filtered_df))%nat then
    do state <- best_state filtered_df ;;
    do season <- best_season filtered_df ;;
    do crop <- best_crop filtered_df ;;
    do rainfall <- rainfall_insight filtered_df ;;
    Ok (Best state season crop rainfall)
  else Ok NoData.

(** The same chain on a rational coefficient, where it computes. *)
Definition rainfall_impact_Q (rainfall_corr : option Q) : impact :=
  if match rainfall_corr with Some c => Qltb (3 # 10) c | None => false end
  then positive_impact
  else if match rainfall_corr with Some c => Qltb c (- (3 # 10))%Q | None => false end
  then negative_impact
  else minimal_impact.

(** The thresholds as the interpreter reads them.  A finite float64 is
    [m * 2^e] for integers [m] and [e] with [|m| < 2^53]; the literal [0.3]
    denotes the float64 nearest to three tenths, which lies just below it. *)
Definition binary64 (m e : Z) : Q :=
  if 0 <=? e then inject_Z (m * 2 ^ e) else Qmake m (Z.to_pos (2 ^ (- e))).

Definition float_three_tenths : Q := binary64 5404319552844595 (-54).

Definition rainfall_impact_float (rainfall_corr : Q) : impact :=
  if Qltb float_three_tenths rainfall_corr then positive_impact
  else if Qltb rainfall_corr (- float_three_tenths)%Q then negative_impact
  else minimal_impact.


(** ** Vocabulary of the properties *)

(** What a comparison yields wherever it does not raise. *)
Definition cmp_view (op : Q -> Q -> bool) (x : Q) (c : cell) : bool :=
  match num c with Some q => op q x | None => false end.

(** The frame without the rows the removal mask selects. *)
Definition keep_rows (df : DataFrame) : DataFrame :=
  {| columns := columns df;
     rows := List.filter (fun r => negb (is_outlier r)) (rows df) |}.

(** The frame restricted to the rows on which [p] holds. *)
Definition restrict (p : gmap string cell -> bool) (df : DataFrame) : DataFrame :=
  {| columns := columns df; rows := List.filter p (rows df) |}.

(** One label filter: what it keeps and when it runs. *)
Definition label_ok (c selected all : string) (r : gmap string cell) : bool :=
  String.eqb selected all || eq_str_cell selected (at_ r c).

(** One [if selected != 'All ...'] block of lines 53-60. *)
Definition label_step (df : DataFrame) (c selected all : string) : result DataFrame :=
  if negb (String.eqb selected all) then filter_eq df c selected else Ok df.

(** The year filter. *)
Definition year_ok (year_range : Z * Z) (r : gmap string cell) : bool :=
  cmp_view Qgeb (inject_Z (fst year_range)) (at_ r "Year") &&
  cmp_view Qle_bool (inject_Z (snd year_range)) (at_ r "Year").

(** Line 62. *)
Definition year_step (df : DataFrame) (year_range : Z * Z) : result DataFrame :=
  do y <- getitem df "Year" ;;
  do from <- series_ge y (inject_Z (fst year_range)) ;;
  do y' <- getitem df "Year" ;;
  do upto <- series_le y' (inject_Z (snd year_range)) ;;
  getitem_mask df (and_ from upto).

(** The rows a selection keeps. *)
Definition matches (s c n : string) (yr : Z * Z) (r : gmap string cell) : bool :=
  label_ok "State" s "All States" r && label_ok "Crop" c "All Crops" r &&
  label_ok "Season" n "All Seasons" r && year_ok yr r.

(** The rows the three label filters keep. *)
Definition labels_match (s c n : string) (r : gmap string cell) : bool :=
  label_ok "State" s "All States" r && label_ok "Crop" c "All Crops" r &&
  label_ok "Season" n "All Seasons" r.

(** The filters run exactly when the columns they read exist and no row that
    passes the label filters has text for a year; they then keep the matching
    rows, in order. *)
Definition filters_run (df : DataFrame) (s c n : string) : Prop :=
  (String.eqb s "All States" = false -> has_column df "State" = true) /\
  (String.eqb c "All Crops" = false -> has_column df "Crop" = true) /\
  (String.eqb n "All Seasons" = false -> has_column df "Season" = true) /\
  has_column df "Year" = true /\
  Forall (fun r => is_text (at_ r "Year") = false)
         (List.filter (labels_match s c n) (rows df)).

(** The cell is an element of an int64 column. *)
Definition is_int (c : cell) : Prop := exists z, c = Int z.

(** [r'] is [r] with [Year] set to the integer that [r] holds under [source]. *)
Definition year_from (source : string) (r r' : gmap string cell) : Prop :=
  exists z, astype_int_cell (at_ r source) = Ok z /\ r' = <["Year" := Int z]> r.



(** ** The rest of the two scripts *)

(** Lines 67-82 of the dashboard: the four metrics above the charts. *)
Definition summary_statistics (filtered_df : DataFrame) : result (nat * cell * cell * cell) :=
  let total_records := length (rows filtered_df) in
  do y <- getitem filtered_df "Yield" ;;
  do avg_yield <- series_mean y ;;
  do p <- getitem filtered_df "Production" ;;
  do total_production <- series_sum p ;;
  do a <- getitem filtered_df "Area" ;;
  do total_area <- series_sum a ;;
  Ok (total_records, avg_yield, total_production, total_area).










(** ** Vocabulary of the further properties *)

(** The row passes a selection of the sidebar. *)
Definition selected_label (c selected all : string) (r : gmap string cell) : Prop :=
  selected = all \/ at_ r c = Str selected.

Definition selected_year (year_range : Z * Z) (r : gmap string cell) : Prop :=
  exists q, num (at_ r "Year") = Some q /\
            (inject_Z (fst year_range) <= q <= inject_Z (snd year_range))%Q.

Definition selected_row (s c n : string) (yr : Z * Z) (r : gmap string cell) : Prop :=
  selected_label "State" s "All States" r /\
  selected_label "Crop" c "All Crops" r /\
  selected_label "Season" n "All Seasons" r /\
  selected_year yr r.

(** [k] orders before [k'] among group labels. *)
Definition key_lt (k k' : cell) : Prop := key_compare k k' = Lt.




(** * Properties *)

(** ** The error monad and masks *)

Lemma bind_Ok {A B} (m : result A) (k : A -> result B) (b : B) :
  bind m k = Ok b -> exists a, m = Ok a /\ k a = Ok b.
Proof. destruct m as [a|e]; simpl; [eauto | discriminate]. Qed.

Lemma traverse_Ok_map {A B} (f : A -> result B) (g : A -> B) :
  (forall x y, f x = Ok y -> y = g x) ->
  forall xs ys, traverse f xs = Ok ys -> ys = map g xs.
Proof.
  intros Hfg xs. induction xs as [|x xs IH]; simpl; intros ys H.
  - congruence.
  - apply bind_Ok in H as (y & Hy & H). apply bind_Ok in H as (ys' & Hys & H).
    injection H as <-. f_equal; [now apply Hfg | now apply IH].
Qed.

Lemma traverse_total {A B} (f : A -> result B) (g : A -> B) (xs : list A) :
  Forall (fun x => f x = Ok (g x)) xs -> traverse f xs = Ok (map g xs).
Proof.
  induction 1 as [|x xs Hx _ IH]; simpl; [reflexivity|].
  now rewrite Hx, IH.
Qed.

Lemma traverse_map {A B C} (f : B -> result C) (h : A -> B) (xs : list A) :
  traverse f (map h xs) = traverse (fun x => f (h x)) xs.
Proof. induction xs as [|x xs IH]; simpl; [reflexivity | now rewrite IH]. Qed.

Lemma cmp_cell_view op x c b : cmp_cell op x c = Ok b -> b = cmp_view op x c.
Proof. destruct c; simpl; unfold cmp_view; simpl; congruence. Qed.

Lemma cmp_cell_total op x c :
  is_text c = false -> cmp_cell op x c = Ok (cmp_view op x c).
Proof. destruct c; simpl; unfold cmp_view; simpl; congruence. Qed.

Lemma and_map {A} (p q : A -> bool) (xs : list A) :
  and_ (map p xs) (map q xs) = map (fun x => p x && q x) xs.
Proof. induction xs as [|x xs IH]; simpl; [reflexivity | now rewrite IH]. Qed.

Lemma select_map {A} (p : A -> bool) (xs : list A) :
  select (map p xs) xs = List.filter p xs.
Proof.
  induction xs as [|x xs IH]; simpl; [reflexivity|].
  rewrite IH. reflexivity.
Qed.

Lemma getitem_mask_map (df : DataFrame) (p : gmap string cell -> bool) :
  getitem_mask df (map p (rows df))
  = Ok {| columns := columns df; rows := List.filter p (rows df) |}.
Proof.
  unfold getitem_mask. rewrite length_map, Nat.eqb_refl. simpl.
  now rewrite select_map.
Qed.

Lemma getitem_Ok df c s :
  getitem df c = Ok s -> s = map (fun r => at_ r c) (rows df).
Proof. unfold getitem. destruct (has_column df c); congruence. Qed.

Lemma getitem_has df c :
  has_column df c = true -> getitem df c = Ok (map (fun r => at_ r c) (rows df)).
Proof. unfold getitem. now intros ->. Qed.

Ltac inv_binds :=
  repeat match goal with
  | H : bind _ _ = Ok _ |- _ =>
      let a := fresh "a" in
      let Ha := fresh "Ha" in
      apply bind_Ok in H; destruct H as (a & Ha & H)
  | H : Ok _ = Ok _ |- _ => injection H as H; try subst
  | H : getitem _ _ = Ok _ |- _ => apply getitem_Ok in H; subst
  end.

(** ** Outlier removal *)

Lemma gt_rows (rs : list (gmap string cell)) c x m :
  series_gt (map (fun r => at_ r c) rs) x = Ok m ->
  m = map (fun r => cmp_view Qgtb x (at_ r c)) rs.
Proof.
  unfold series_gt. rewrite traverse_map. apply traverse_Ok_map.
  intros r b. apply cmp_cell_view.
Qed.

Lemma gt_rows_total (rs : list (gmap string cell)) c x :
  Forall (fun r => is_text (at_ r c) = false) rs ->
  series_gt (map (fun r => at_ r c) rs) x = Ok (map (fun r => cmp_view Qgtb x (at_ r c)) rs).
Proof.
  intros H. unfold series_gt. rewrite traverse_map. apply traverse_total.
  eapply Forall_impl; [exact H|]. intros r Hr. now apply cmp_cell_total.
Qed.

Lemma remove_outliers_Ok df df' :
  remove_outliers df = Ok df' ->
  df' = if has_column df "Area" && has_column df "Production"
        then keep_rows df else df.
Proof.
  unfold remove_outliers, remove_outliers_report. intros H.
  destruct (has_column df "Area" && has_column df "Production"); simpl in H.
  - inv_binds. simpl.
    match goal with H : series_gt _ _ = Ok _ |- _ => apply gt_rows in H; subst end.
    match goal with H : getitem_mask _ (invert _) = Ok _ |- _ =>
      unfold series_eq, invert in H; rewrite map_map, and_map, map_map in H;
      rewrite getitem_mask_map in H; injection H as <- end.
    reflexivity.
  - congruence.
Qed.

(** The step raises only on a text cell in [Area]. *)
Lemma remove_outliers_total df :
  Forall (fun r => is_text (at_ r "Area") = false) (rows df) ->
  exists df', remove_outliers df = Ok df'.
Proof.
  intros Hnum. unfold remove_outliers, remove_outliers_report, outliers.
  destruct (has_column df "Area") eqn:HA; simpl; [|eauto].
  destruct (has_column df "Production") eqn:HP; simpl; [|eauto].
  rewrite !getitem_has by assumption. simpl.
  rewrite gt_rows_total by assumption. simpl.
  unfold series_eq, invert. rewrite map_map, and_map, map_map, !getitem_mask_map.
  simpl. eauto.
Qed.

Lemma remove_outliers_columns df df' :
  remove_outliers df = Ok df' -> columns df' = columns df.
Proof.
  intros H. apply remove_outliers_Ok in H. subst.
  now destruct (has_column df "Area" && has_column df "Production").
Qed.

Lemma remove_outliers_clean df df' :
  remove_outliers df = Ok df' ->
  has_column df' "Area" = true -> has_column df' "Production" = true ->
  Forall (fun r => is_outlier r = false) (rows df').
Proof.
  intros H HA HP. pose proof (remove_outliers_columns _ _ H) as Hc.
  unfold has_column in HA, HP. rewrite Hc in HA, HP.
  apply remove_outliers_Ok in H. unfold has_column in H.
  rewrite HA, HP in H. subst. simpl.
  apply List.Forall_forall. intros r Hr. apply List.filter_In in Hr.
  destruct Hr as [_ Hr]. now apply negb_true_iff.
Qed.

Lemma outliers_none df :
  Forall (fun r => is_outlier r = false) (rows df) ->
  forall o, outliers df = Ok o -> rows o = [].
Proof.
  intros Hall o H. unfold outliers in H. inv_binds.
  match goal with H : series_gt _ _ = Ok _ |- _ => apply gt_rows in H; subst end.
  unfold series_eq in H. rewrite map_map, and_map, getitem_mask_map in H.
  injection H as <-. simpl.
  induction Hall as [|r rs Hr _ IH]; simpl; [reflexivity|].
  unfold is_outlier, area_positive, production_zero in Hr.
  unfold cmp_view. now rewrite Hr.
Qed.

Lemma outliers_has df o :
  outliers df = Ok o ->
  has_column df "Area" = true /\ has_column df "Production" = true.
Proof.
  unfold outliers, getitem. intros H.
  destruct (has_column df "Area"); [|discriminate]. simpl in H.
  apply bind_Ok in H as (pos & _ & H).
  destruct (has_column df "Production"); [auto | discriminate].
Qed.

(** Both cleaners end with the removal step. *)
Lemma cleaner_ends_with_removal df df' :
  clean df = Ok df' \/ load_data df = Ok df' ->
  exists df1, remove_outliers df1 = Ok df'.
Proof.
  unfold clean, load_data. intros [H|H]; apply bind_Ok in H as (df1 & _ & H); eauto.
Qed.

(** C1. A cleaned frame, from the script's cleaning step, from the dashboard's
    [load_data] or from the removal step alone, has no row with Area > 0 and
    Production == 0: the frame the script prints as [outliers] is empty on it,
    and no row satisfies the mask.  On the two records (A, 10, 0) and
    (B, 5, 20) the cleaners drop A and keep exactly B. *)
Theorem clean_has_no_outlier :
  (forall df df',
      remove_outliers df = Ok df' \/ clean df = Ok df' \/ load_data df = Ok df' ->
      (forall o, outliers df' = Ok o -> rows o = []) /\
      (has_column df' "Area" = true -> has_column df' "Production" = true ->
       Forall (fun r => is_outlier r = false) (rows df'))) /\
  is_outlier record_A = true /\
  remove_outliers two_records = Ok {| columns := columns two_records; rows := [record_B] |} /\
  clean two_records = Ok {| columns := columns two_records; rows := [record_B] |} /\
  load_data two_records = Ok {| columns := columns two_records; rows := [record_B] |}.
Proof.
  split; [|repeat split; reflexivity].
  intros df df' H.
  assert (exists df1, remove_outliers df1 = Ok df') as [df1 H1].
  { destruct H as [H|H]; [eauto | exact (cleaner_ends_with_removal df df' H)]. }
  assert (has_column df' "Area" = true -> has_column df' "Production" = true ->
          Forall (fun r => is_outlier r = false) (rows df')) as Hrows
    by (exact (remove_outliers_clean df1 df' H1)).
  split; [|exact Hrows].
  intros o Ho. destruct (outliers_has _ _ Ho) as [HA HP].
  apply (outliers_none df'); [now apply Hrows | exact Ho].
Qed.

Lemma clean_has_no_outlier_witness :
  Forall (fun r => is_outlier r = false) [record_B].
Proof.
  exact (proj2 (proj1 clean_has_no_outlier two_records
                  {| columns := columns two_records; rows := [record_B] |}
                  (or_introl eq_refl))
           eq_refl eq_refl).
Defined.

Lemma remove_outliers_keeps df df' :
  remove_outliers df = Ok df' ->
  forall r, In r (rows df) -> is_outlier r = false -> In r (rows df').
Proof.
  intros H r Hr Hout. apply remove_outliers_Ok in H. subst df'.
  destruct (has_column df "Area" && has_column df "Production"); [|exact Hr].
  simpl. apply List.filter_In. now rewrite Hout.
Qed.

(** ** The sidebar filters *)

Lemma filter_all_true {A} (p : A -> bool) (xs : list A) :
  Forall (fun x => p x = true) xs -> List.filter p xs = xs.
Proof.
  induction 1 as [|x xs Hx _ IH]; simpl; [reflexivity|]. now rewrite Hx, IH.
Qed.

Lemma filter_twice {A} (p q : A -> bool) (xs : list A) :
  List.filter q (List.filter p xs) = List.filter (fun x => p x && q x) xs.
Proof.
  induction xs as [|x xs IH]; simpl; [reflexivity|].
  destruct (p x); simpl; [destruct (q x)|]; now rewrite IH.
Qed.

Lemma restrict_restrict p q df :
  restrict q (restrict p df) = restrict (fun r => p r && q r) df.
Proof. unfold restrict. simpl. now rewrite filter_twice. Qed.

Lemma restrict_id p df :
  Forall (fun r => p r = true) (rows df) -> restrict p df = df.
Proof.
  intros H. unfold restrict. rewrite filter_all_true by exact H. now destruct df.
Qed.

Lemma label_step_Ok df c selected all df' :
  label_step df c selected all = Ok df' ->
  df' = restrict (label_ok c selected all) df /\
  (String.eqb selected all = false -> has_column df c = true).
Proof.
  unfold label_step, label_ok. destruct (String.eqb selected all); simpl.
  - intros [= <-]. split; [|discriminate].
    symmetry. apply restrict_id. now apply List.Forall_forall.
  - unfold filter_eq, getitem. destruct (has_column df c); [|discriminate].
    simpl. unfold series_eq_str. rewrite map_map, getitem_mask_map.
    intros [= <-]. auto.
Qed.

Lemma label_step_total df c selected all :
  (String.eqb selected all = false -> has_column df c = true) ->
  label_step df c selected all = Ok (restrict (label_ok c selected all) df).
Proof.
  unfold label_step, label_ok. destruct (String.eqb selected all); simpl; intros H.
  - f_equal. symmetry. apply restrict_id. now apply List.Forall_forall.
  - unfold filter_eq. rewrite getitem_has by auto. simpl.
    unfold series_eq_str. now rewrite map_map, getitem_mask_map.
Qed.

Lemma traverse_cmp_Ok op x (rs : list (gmap string cell)) c m :
  traverse (cmp_cell op x) (map (fun r => at_ r c) rs) = Ok m ->
  m = map (fun r => cmp_view op x (at_ r c)) rs /\
  Forall (fun r => is_text (at_ r c) = false) rs.
Proof.
  rewrite traverse_map. revert m.
  induction rs as [|r rs IH]; simpl; intros m H.
  - injection H as <-. auto.
  - apply bind_Ok in H as (b & Hb & H). apply bind_Ok in H as (bs & Hbs & H).
    injection H as <-. destruct (IH _ Hbs) as [-> Hall]. split.
    + f_equal. now apply cmp_cell_view.
    + constructor; [|exact Hall]. now destruct (at_ r c).
Qed.

Lemma traverse_cmp_total op x (rs : list (gmap string cell)) c :
  Forall (fun r => is_text (at_ r c) = false) rs ->
  traverse (cmp_cell op x) (map (fun r => at_ r c) rs)
  = Ok (map (fun r => cmp_view op x (at_ r c)) rs).
Proof.
  intros H. rewrite traverse_map. apply traverse_total.
  eapply Forall_impl; [exact H|]. intros r Hr. now apply cmp_cell_total.
Qed.

Lemma year_step_Ok df year_range df' :
  year_step df year_range = Ok df' ->
  df' = restrict (year_ok year_range) df /\
  has_column df "Year" = true /\
  Forall (fun r => is_text (at_ r "Year") = false) (rows df).
Proof.
  unfold year_step, getitem. destruct (has_column df "Year"); [|discriminate].
  simpl. intros H.
  apply bind_Ok in H as (from & Hfrom & H). apply bind_Ok in H as (upto & Hupto & H).
  unfold series_ge in Hfrom. unfold series_le in Hupto.
  apply traverse_cmp_Ok in Hfrom, Hupto.
  destruct Hfrom as [-> Hnum], Hupto as [-> _].
  rewrite and_map, getitem_mask_map in H. injection H as <-. auto.
Qed.

Lemma year_step_total df year_range :
  has_column df "Year" = true ->
  Forall (fun r => is_text (at_ r "Year") = false) (rows df) ->
  year_step df year_range = Ok (restrict (year_ok year_range) df).
Proof.
  intros Hc Hnum. unfold year_step. rewrite getitem_has by exact Hc. simpl.
  unfold series_ge, series_le. rewrite !traverse_cmp_total by exact Hnum. simpl.
  now rewrite and_map, getitem_mask_map.
Qed.

Lemma apply_filters_steps df s c n yr :
  apply_filters df s c n yr =
  (do f1 <- label_step df "State" s "All States" ;;
   do f2 <- label_step f1 "Crop" c "All Crops" ;;
   do f3 <- label_step f2 "Season" n "All Seasons" ;;
   year_step f3 yr).
Proof. reflexivity. Qed.

Lemma restrict_ext p q df :
  (forall r, p r = q r) -> restrict p df = restrict q df.
Proof. intros H. unfold restrict. f_equal. now apply List.filter_ext. Qed.

Lemma restrict_steps s c n yr df :
  restrict (year_ok yr)
    (restrict (label_ok "Season" n "All Seasons")
       (restrict (label_ok "Crop" c "All Crops")
          (restrict (label_ok "State" s "All States") df)))
  = restrict (matches s c n yr) df.
Proof.
  rewrite !restrict_restrict. apply restrict_ext.
  intros r. unfold matches. now rewrite !andb_assoc.
Qed.

Lemma rows_label_steps s c n df :
  rows (restrict (label_ok "Season" n "All Seasons")
          (restrict (label_ok "Crop" c "All Crops")
             (restrict (label_ok "State" s "All States") df)))
  = List.filter (labels_match s c n) (rows df).
Proof.
  rewrite !restrict_restrict. simpl. apply List.filter_ext.
  intros r. unfold labels_match. now rewrite !andb_assoc.
Qed.

Lemma apply_filters_Ok df s c n yr df' :
  apply_filters df s c n yr = Ok df' ->
  df' = restrict (matches s c n yr) df /\ filters_run df s c n.
Proof.
  rewrite apply_filters_steps. intros H.
  apply bind_Ok in H as (f1 & Hf1 & H). apply bind_Ok in H as (f2 & Hf2 & H).
  apply bind_Ok in H as (f3 & Hf3 & H).
  apply label_step_Ok in Hf1. destruct Hf1 as [-> H1].
  apply label_step_Ok in Hf2. destruct Hf2 as [-> H2].
  apply label_step_Ok in Hf3. destruct Hf3 as [-> H3].
  apply year_step_Ok in H. destruct H as (-> & Hy & Hnum).
  rewrite rows_label_steps in Hnum.
  split; [apply restrict_steps|]. repeat split; assumption.
Qed.

Lemma apply_filters_total df s c n yr :
  filters_run df s c n ->
  apply_filters df s c n yr = Ok (restrict (matches s c n yr) df).
Proof.
  intros (H1 & H2 & H3 & Hy & Hnum). rewrite apply_filters_steps.
  rewrite label_step_total by exact H1. simpl.
  rewrite label_step_total by exact H2. simpl.
  rewrite label_step_total by exact H3. simpl.
  rewrite year_step_total; [now rewrite restrict_steps | exact Hy |].
  now rewrite rows_label_steps.
Qed.

(** C4. The sidebar filters are idempotent: on the frame they return, the
    same selection returns that frame again. *)
Theorem apply_filters_idempotent df s c n yr df' :
  apply_filters df s c n yr = Ok df' ->
  apply_filters df' s c n yr = Ok df'.
Proof.
  intros H. apply apply_filters_Ok in H.
  destruct H as (-> & H1 & H2 & H3 & Hy & Hnum).
  rewrite apply_filters_total.
  - f_equal. rewrite restrict_restrict. apply restrict_ext.
    intros r. apply andb_diag.
  - repeat split; try assumption. simpl.
    apply List.Forall_forall. intros r Hr.
    apply List.filter_In in Hr. destruct Hr as [Hr Hl].
    apply List.filter_In in Hr. destruct Hr as [Hr Hm].
    rewrite List.Forall_forall in Hnum. apply Hnum.
    apply List.filter_In. auto.
Qed.

Lemma apply_filters_idempotent_witness :
  apply_filters (restrict (matches "Bihar" "All Crops" "Kharif" (1998, 1999)) sample)
    "Bihar" "All Crops" "Kharif" (1998, 1999)
  = Ok (restrict (matches "Bihar" "All Crops" "Kharif" (1998, 1999)) sample).
Proof.
  apply (apply_filters_idempotent sample). vm_compute. reflexivity.
Defined.

(** ** The default year range *)

Lemma Qltb_lt x y : Qltb x y = true <-> (x < y)%Q.
Proof.
  unfold Qltb. rewrite negb_true_iff, <- not_true_iff_false, Qle_bool_iff.
  split; [apply Qnot_le_lt | apply Qlt_not_le].
Qed.

Lemma Qltb_ge x y : Qltb x y = false <-> (y <= x)%Q.
Proof.
  unfold Qltb. rewrite negb_false_iff. apply Qle_bool_iff.
Qed.

Lemma fold_cell_min vs v :
  In (fold_left cell_min vs v) (v :: vs) /\
  forall c, In c (v :: vs) -> (value (fold_left cell_min vs v) <= value c)%Q.
Proof.
  revert v. induction vs as [|x vs IH]; intros v; simpl.
  - split; [auto|]. intros c [<-|[]]. apply Qle_refl.
  - destruct (IH (cell_min v x)) as [Hin Hle].
    assert (Hm : (cell_min v x = v \/ cell_min v x = x) /\
                 (value (cell_min v x) <= value v)%Q /\
                 (value (cell_min v x) <= value x)%Q).
    { unfold cell_min. destruct (Qltb (value x) (value v)) eqn:E.
      - apply Qltb_lt in E. repeat split; [auto | now apply Qlt_le_weak | apply Qle_refl].
      - apply Qltb_ge in E. repeat split; [auto | apply Qle_refl | exact E]. }
    destruct Hm as (Hor & Hv & Hx). split.
    + destruct Hin as [Hin|Hin]; [|auto].
      rewrite <- Hin. destruct Hor as [->| ->]; auto.
    + intros c [<-|[<-|Hc]].
      * eapply Qle_trans; [apply Hle; left; reflexivity | exact Hv].
      * eapply Qle_trans; [apply Hle; left; reflexivity | exact Hx].
      * apply Hle. now right.
Qed.

Lemma fold_cell_max vs v :
  In (fold_left cell_max vs v) (v :: vs) /\
  forall c, In c (v :: vs) -> (value c <= value (fold_left cell_max vs v))%Q.
Proof.
  revert v. induction vs as [|x vs IH]; intros v; simpl.
  - split; [auto|]. intros c [<-|[]]. apply Qle_refl.
  - destruct (IH (cell_max v x)) as [Hin Hle].
    assert (Hm : (cell_max v x = v \/ cell_max v x = x) /\
                 (value v <= value (cell_max v x))%Q /\
                 (value x <= value (cell_max v x))%Q).
    { unfold cell_max. destruct (Qltb (value v) (value x)) eqn:E.
      - apply Qltb_lt in E. repeat split; [auto | now apply Qlt_le_weak | apply Qle_refl].
      - apply Qltb_ge in E. repeat split; [auto | apply Qle_refl | exact E]. }
    destruct Hm as (Hor & Hv & Hx). split.
    + destruct Hin as [Hin|Hin]; [|auto].
      rewrite <- Hin. destruct Hor as [->| ->]; auto.
    + intros c [<-|[<-|Hc]].
      * eapply Qle_trans; [exact Hv | apply Hle; left; reflexivity].
      * eapply Qle_trans; [exact Hx | apply Hle; left; reflexivity].
      * apply Hle. now right.
Qed.

Lemma dropna_ints (s : list cell) : Forall is_int s -> dropna s = Ok s.
Proof.
  induction 1 as [|c s [z ->] _ IH]; simpl; [reflexivity | now rewrite IH].
Qed.

Lemma reduce_ints pick (s : list cell) c :
  Forall is_int s -> reduce pick s = Ok c ->
  match s with [] => c = NaN | v :: vs => c = fold_left pick vs v end.
Proof.
  intros Hs. unfold reduce. rewrite dropna_ints by exact Hs. simpl.
  intros [= <-]. now destruct s.
Qed.

Lemma Qle_inject_Z a b : (inject_Z a <= inject_Z b)%Q -> (a <= b)%Z.
Proof. intros H. now rewrite Zle_Qle. Qed.

(** On a column of integers the slider bounds are the least and the greatest
    year present. *)
Lemma year_bounds_ints df lo hi :
  Forall (fun r => is_int (at_ r "Year")) (rows df) ->
  year_bounds df = Ok (lo, hi) ->
  has_column df "Year" = true /\
  Forall (fun r => exists z, at_ r "Year" = Int z /\ (lo <= z <= hi)%Z) (rows df).
Proof.
  intros Hint H. unfold year_bounds, getitem in H.
  destruct (has_column df "Year"); [|discriminate]. simpl in H.
  split; [reflexivity|].
  assert (Hs : Forall is_int (map (fun r => at_ r "Year") (rows df))).
  { apply List.Forall_forall. intros c Hc. apply List.in_map_iff in Hc.
    destruct Hc as (r & <- & Hr). rewrite List.Forall_forall in Hint. now apply Hint. }
  apply bind_Ok in H as (cmin & Hmin & H). apply bind_Ok in H as (zmin & Hzmin & H).
  apply bind_Ok in H as (cmax & Hmax & H). apply bind_Ok in H as (zmax & Hzmax & H).
  injection H as <- <-.
  apply (reduce_ints _ _ _ Hs) in Hmin. apply (reduce_ints _ _ _ Hs) in Hmax.
  destruct (map (fun r => at_ r "Year") (rows df)) as [|v vs] eqn:Ey.
  { subst cmin. discriminate. }
  destruct (fold_cell_min vs v) as [Hin_min Hle_min].
  destruct (fold_cell_max vs v) as [Hin_max Hle_max].
  rewrite <- Hmin in Hin_min, Hle_min. rewrite <- Hmax in Hin_max, Hle_max.
  rewrite List.Forall_forall in Hs.
  destruct (Hs _ Hin_min) as [a ->]. destruct (Hs _ Hin_max) as [b ->].
  simpl in Hzmin, Hzmax. injection Hzmin as <-. injection Hzmax as <-.
  apply List.Forall_forall. intros r Hr.
  assert (Hc : In (at_ r "Year") (v :: vs)).
  { rewrite <- Ey. apply List.in_map_iff. eauto. }
  destruct (Hs _ Hc) as [z Hz]. exists z. split; [exact Hz|].
  specialize (Hle_min _ Hc). specialize (Hle_max _ Hc).
  rewrite Hz in Hle_min, Hle_max. unfold value in Hle_min, Hle_max.
  simpl in Hle_min, Hle_max. split; now apply Qle_inject_Z.
Qed.

Lemma matches_all yr r z :
  at_ r "Year" = Int z -> (fst yr <= z <= snd yr)%Z ->
  matches "All States" "All Crops" "All Seasons" yr r = true.
Proof.
  intros Hz [Hlo Hhi]. unfold matches, label_ok, year_ok, cmp_view. rewrite Hz.
  simpl. apply andb_true_iff. unfold Qgeb.
  split; apply Qle_bool_iff; now rewrite <- Zle_Qle.
Qed.

(** [load_data] leaves integers in [Year] when it finds [Crop_Year]. *)
Lemma set_column_in c rs vs r :
  In r (set_column c rs vs) -> exists v, In v vs /\ r !! c = Some v.
Proof.
  revert vs. induction rs as [|r0 rs IH]; intros [|v vs]; simpl; try tauto.
  intros [<-|Hr].
  - exists v. split; [auto | apply lookup_insert_eq].
  - destruct (IH _ Hr) as (v' & Hv' & Hl). eauto.
Qed.

Lemma astype_int_ints s v : astype_int s = Ok v -> Forall is_int v.
Proof.
  unfold astype_int. intros H. apply bind_Ok in H as (zs & _ & H).
  injection H as <-. apply List.Forall_forall. intros c Hc.
  apply List.in_map_iff in Hc. destruct Hc as (z & <- & _). now exists z.
Qed.

Lemma filter_Forall {A} (P : A -> Prop) (p : A -> bool) (xs : list A) :
  Forall P xs -> Forall P (List.filter p xs).
Proof.
  rewrite !List.Forall_forall. intros H x Hx.
  apply List.filter_In in Hx. now apply H.
Qed.

Lemma load_data_year_int raw df :
  has_column raw "Crop_Year" = true -> load_data raw = Ok df ->
  Forall (fun r => is_int (at_ r "Year")) (rows df).
Proof.
  intros Hc H. unfold load_data in H. rewrite Hc in H.
  apply bind_Ok in H as (df1 & H1 & H).
  apply bind_Ok in H1 as (s & _ & H1). apply bind_Ok in H1 as (v & Hv & H1).
  apply astype_int_ints in Hv. unfold setitem in H1.
  destruct (negb (length v =? length (rows raw))%nat); [discriminate|].
  injection H1 as <-.
  apply remove_outliers_Ok in H.
  assert (Hall : Forall (fun r => is_int (at_ r "Year")) (set_column "Year" (rows raw) v)).
  { apply List.Forall_forall. intros r Hr. apply set_column_in in Hr.
    destruct Hr as (c & Hin & Hl). unfold at_. rewrite Hl. simpl.
    rewrite List.Forall_forall in Hv. now apply Hv. }
  subst df. match goal with |- context [if ?b then _ else _] => destruct b end.
  - simpl. now apply filter_Forall.
  - exact Hall.
Qed.

(** C3. With "All States", "All Crops", "All Seasons" and the slider's default
    range, which spans the least to the greatest year of the frame, the filters
    return the frame itself: the same columns and the same rows in the same
    order.  [Year] holds integers, as it does in every frame that [load_data]
    builds from a [Crop_Year] column. *)
Theorem apply_filters_unset :
  (forall df lo hi,
      Forall (fun r => is_int (at_ r "Year")) (rows df) ->
      year_bounds df = Ok (lo, hi) ->
      apply_filters df "All States" "All Crops" "All Seasons" (lo, hi) = Ok df) /\
  (forall raw df lo hi,
      has_column raw "Crop_Year" = true ->
      load_data raw = Ok df ->
      year_bounds df = Ok (lo, hi) ->
      apply_filters df "All States" "All Crops" "All Seasons" (lo, hi) = Ok df).
Proof.
  assert (Hmain : forall df lo hi,
      Forall (fun r => is_int (at_ r "Year")) (rows df) ->
      year_bounds df = Ok (lo, hi) ->
      apply_filters df "All States" "All Crops" "All Seasons" (lo, hi) = Ok df).
  { intros df lo hi Hint Hb.
    destruct (year_bounds_ints _ _ _ Hint Hb) as [Hy Hrange].
    rewrite apply_filters_total.
    - f_equal. apply restrict_id. eapply Forall_impl; [exact Hrange|].
      intros r (z & Hz & Hle). now apply matches_all with z.
    - repeat split; try discriminate; [exact Hy|].
      apply filter_Forall. eapply Forall_impl; [exact Hint|].
      intros r [z ->]. reflexivity. }
  split; [exact Hmain|].
  intros raw df lo hi Hc Hload Hb. apply Hmain; [|exact Hb].
  now apply load_data_year_int with raw.
Qed.

Lemma apply_filters_unset_witness :
  apply_filters sample "All States" "All Crops" "All Seasons" (1997, 1999) = Ok sample.
Proof.
  refine (proj2 apply_filters_unset sample_csv sample 1997 1999 _ _ _);
    reflexivity.
Defined.

(** ** Grouped means *)

Lemma traverse_In {A B} (f : A -> result B) xs ys y :
  traverse f xs = Ok ys -> In y ys -> exists x, In x xs /\ f x = Ok y.
Proof.
  revert ys. induction xs as [|x xs IH]; simpl; intros ys H Hy.
  - injection H as <-. destruct Hy.
  - apply bind_Ok in H as (b & Hb & H). apply bind_Ok in H as (bs & Hbs & H).
    injection H as <-. destruct Hy as [<-|Hy]; [eauto|].
    destruct (IH _ Hbs Hy) as (x' & Hx' & Hf). eauto.
Qed.








(** ** [idxmax] *)

Lemma argmax_Some s : forall best k q,
  argmax best s = Some (k, q) ->
  (best = Some (k, q) \/ exists v, In (k, v) s /\ num v = Some q) /\
  (forall kb b, best = Some (kb, b) -> (b <= q)%Q) /\
  (forall k' v' q', In (k', v') s -> num v' = Some q' -> (q' <= q)%Q).
Proof.
  induction s as [|[k0 v0] s IH]; simpl; intros best k q H.
  - subst best. split; [auto|]. split.
    + intros kb b [= -> ->]. apply Qle_refl.
    + intros k' v' q' [].
  - destruct (num v0) as [q0|] eqn:E0.
    + destruct best as [[kb b]|].
      * destruct (Qltb b q0) eqn:Elt.
        -- apply Qltb_lt in Elt. destruct (IH _ _ _ H) as (Hin & Hb & Hall).
           assert (Hq0 : (q0 <= q)%Q) by (now apply (Hb k0)).
           split; [|split].
           ++ right. destruct Hin as [[= <- <-]|(v & Hv & Hvq)]; eauto.
           ++ intros kb' b' [= <- <-]. lra.
           ++ intros k' v' q' [[= <- <-]|Hin'] Hq'; [|now apply (Hall k' v')].
              rewrite E0 in Hq'. injection Hq' as <-. exact Hq0.
        -- apply Qltb_ge in Elt. destruct (IH _ _ _ H) as (Hin & Hb & Hall).
           assert (Hbq : (b <= q)%Q) by (now apply (Hb kb)).
           split; [|split].
           ++ destruct Hin as [Hin|(v & Hv & Hvq)]; [now left | right; eauto].
           ++ intros kb' b' [= <- <-]. exact Hbq.
           ++ intros k' v' q' [[= <- <-]|Hin'] Hq'; [|now apply (Hall k' v')].
              rewrite E0 in Hq'. injection Hq' as <-. lra.
      * destruct (IH _ _ _ H) as (Hin & Hb & Hall).
        assert (Hq0 : (q0 <= q)%Q) by (now apply (Hb k0)).
        split; [|split].
        -- right. destruct Hin as [[= <- <-]|(v & Hv & Hvq)]; eauto.
        -- discriminate.
        -- intros k' v' q' [[= <- <-]|Hin'] Hq'; [|now apply (Hall k' v')].
           rewrite E0 in Hq'. injection Hq' as <-. exact Hq0.
    + destruct (IH _ _ _ H) as (Hin & Hb & Hall). split; [|split].
      * destruct Hin as [Hin|(v & Hv & Hvq)]; [now left | right; eauto].
      * exact Hb.
      * intros k' v' q' [[= <- <-]|Hin'] Hq'; [congruence | now apply (Hall k' v')].
Qed.

Lemma argmax_None s : forall best,
  argmax best s = None ->
  best = None /\ forall k v, In (k, v) s -> num v = None.
Proof.
  induction s as [|[k0 v0] s IH]; simpl; intros best H.
  - split; [exact H | intros k v []].
  - destruct (num v0) as [q0|] eqn:E0.
    + destruct best as [[kb b]|].
      * destruct (Qltb b q0); apply IH in H; destruct H as [H _]; discriminate.
      * apply IH in H. destruct H as [H _]. discriminate.
    + apply IH in H. destruct H as [-> Hall]. split; [reflexivity|].
      intros k v [[= <- <-]|Hin]; [exact E0 | now apply (Hall k)].
Qed.

Lemma idxmax_Ok agg k :
  idxmax agg = Ok k -> has_number agg -> is_best agg k.
Proof.
  intros H (k1 & v1 & Hin1 & Hnum1).
  assert (Hk : argmax None agg = None /\ k = NaN \/ exists q, argmax None agg = Some (k, q)).
  { unfold idxmax in H. destruct agg as [|e agg]; [discriminate|].
    destruct (existsb is_text (map snd (e :: agg))); [discriminate|].
    destruct (argmax None (e :: agg)) as [[k' q]|]; injection H as <-; eauto. }
  destruct Hk as [[E _]|[q E]].
  - apply argmax_None in E. destruct E as [_ Hall].
    unfold is_number in Hnum1. now rewrite (Hall _ _ Hin1) in Hnum1.
  - apply argmax_Some in E. destruct E as ([E|(v & Hv & Hq)] & _ & Hall); [discriminate|].
    exists v, q. auto.
Qed.


Lemma groupby_agg_values (P : cell -> Prop) agg df key metric s :
  (forall l m, agg l = Ok m -> P m) ->
  groupby_agg agg df key metric = Ok s ->
  Forall (fun e => P (snd e)) s.
Proof.
  intros HP H. unfold groupby_agg in H.
  apply bind_Ok in H as (ks & _ & H). apply bind_Ok in H as (vs & _ & H).
  apply List.Forall_forall. intros e He.
  destruct (traverse_In _ _ _ _ H He) as (k & _ & Hk).
  apply bind_Ok in Hk as (m & Hm & Hk). injection Hk as <-. simpl. eauto.
Qed.


Lemma sum_is_number l m : series_sum l = Ok m -> is_number m = true.
Proof.
  unfold series_sum. intros H. apply bind_Ok in H as (vs & _ & H). now injection H as <-.
Qed.

Lemma idxmax_nonempty agg k : idxmax agg = Ok k -> agg <> [].
Proof. now destruct agg. Qed.



(** ** Year coercion *)

Lemma traverse_Forall2 {A B} (f : A -> result B) xs ys :
  traverse f xs = Ok ys -> Forall2 (fun x y => f x = Ok y) xs ys.
Proof.
  revert ys. induction xs as [|x xs IH]; simpl; intros ys H.
  - injection H as <-. constructor.
  - apply bind_Ok in H as (b & Hb & H). apply bind_Ok in H as (bs & Hbs & H).
    injection H as <-. constructor; auto.
Qed.

Lemma set_column_year source (rs : list (gmap string cell)) zs :
  Forall2 (fun c z => astype_int_cell c = Ok z) (map (fun r => at_ r source) rs) zs ->
  Forall2 (year_from source) rs (set_column "Year" rs (map Int zs)).
Proof.
  revert zs. induction rs as [|r rs IH]; simpl; intros zs H.
  - constructor.
  - inversion H as [|c z cs zs' Hc Hcs]; subst. simpl.
    constructor; [now exists z | now apply IH].
Qed.

Lemma assign_year_Ok df source df' :
  (do s <- getitem df source ;; do v <- astype_int s ;; setitem df "Year" v) = Ok df' ->
  has_column df' "Year" = true /\
  (forall c, has_column df c = true -> has_column df' c = true) /\
  Forall2 (year_from source) (rows df) (rows df').
Proof.
  intros H. apply bind_Ok in H as (s & Hs & H). apply bind_Ok in H as (v & Hv & H).
  apply getitem_Ok in Hs. subst s.
  unfold astype_int in Hv. apply bind_Ok in Hv as (zs & Hzs & Hv). injection Hv as <-.
  unfold setitem in H.
  destruct (negb (length (map Int zs) =? length (rows df))%nat); [discriminate|].
  injection H as <-. simpl. unfold has_column. simpl.
  split; [|split].
  - destruct (bool_decide ("Year" ∈ columns df)) eqn:E; [exact E|].
    apply bool_decide_eq_true. apply elem_of_app. right. now left.
  - intros c Hc. apply bool_decide_eq_true in Hc. apply bool_decide_eq_true.
    destruct (bool_decide ("Year" ∈ columns df)); [exact Hc|].
    apply elem_of_app. now left.
  - apply set_column_year. now apply traverse_Forall2.
Qed.

Lemma traverse_length {A B} (f : A -> result B) xs ys :
  traverse f xs = Ok ys -> length ys = length xs.
Proof.
  intros H. apply traverse_Forall2 in H.
  induction H; simpl; congruence.
Qed.

Lemma traverse_raise_or_Ok {A B} (f : A -> result B) xs :
  (exists ys, traverse f xs = Ok ys) \/
  (exists x e, In x xs /\ f x = Raise e /\ traverse f xs = Raise e).
Proof.
  induction xs as [|x xs IH]; simpl; [left; eauto|].
  destruct (f x) as [y|e] eqn:E; simpl.
  - destruct IH as [[ys ->]|(x' & e & Hin & Hf & ->)]; simpl; [left; eauto|].
    right. exists x', e. auto.
  - right. exists x, e. auto.
Qed.

(** With the source column present the assignment raises only where a cell
    cannot be cast. *)
Lemma assign_year_total df source :
  has_column df source = true ->
  (exists df', (do s <- getitem df source ;; do v <- astype_int s ;;
                setitem df "Year" v) = Ok df') \/
  (exists r e, In r (rows df) /\ astype_int_cell (at_ r source) = Raise e /\
               (do s <- getitem df source ;; do v <- astype_int s ;;
                setitem df "Year" v) = Raise e).
Proof.
  intros Hc. rewrite getitem_has by exact Hc. simpl. unfold astype_int.
  destruct (traverse_raise_or_Ok astype_int_cell (map (fun r => at_ r source) (rows df)))
    as [[zs Hzs]|(c & e & Hin & Hf & Hr)].
  - left. rewrite Hzs. simpl. unfold setitem.
    rewrite length_map, (traverse_length _ _ _ Hzs), length_map, Nat.eqb_refl.
    simpl. eauto.
  - right. apply List.in_map_iff in Hin. destruct Hin as (r & <- & Hr').
    exists r, e. rewrite Hr. auto.
Qed.

(** C9, as the code has it.  With a [Crop_Year] column both cleaners set [Year],
    row by row, to the integer cast of [Crop_Year]; without it the script casts
    an existing [Year] column in place; a cell that cannot be cast (a missing
    value, text that is not an integer) raises.  With neither column no error
    is raised: the script's conversion returns the frame as it is, without a
    [Year] column. *)
Theorem convert_year_sources df :
  (has_column df "Crop_Year" = true ->
   forall df', convert_year df = Ok df' ->
     has_column df' "Year" = true /\ Forall2 (year_from "Crop_Year") (rows df) (rows df')) /\
  (has_column df "Crop_Year" = true ->
   (exists df', convert_year df = Ok df') \/
   (exists r e, In r (rows df) /\ astype_int_cell (at_ r "Crop_Year") = Raise e /\
                convert_year df = Raise e)) /\
  (has_column df "Crop_Year" = false -> has_column df "Year" = true ->
   forall df', convert_year df = Ok df' ->
     has_column df' "Year" = true /\ Forall2 (year_from "Year") (rows df) (rows df')) /\
  (has_column df "Crop_Year" = false -> has_column df "Year" = true ->
   (exists df', convert_year df = Ok df') \/
   (exists r e, In r (rows df) /\ astype_int_cell (at_ r "Year") = Raise e /\
                convert_year df = Raise e)) /\
  (has_column df "Crop_Year" = false -> has_column df "Year" = false ->
   convert_year df = Ok df) /\
  (has_column df "Crop_Year" = true ->
   forall df', load_data df = Ok df' ->
     exists df1, has_column df1 "Year" = true /\
                 Forall2 (year_from "Crop_Year") (rows df) (rows df1) /\
                 remove_outliers df1 = Ok df').
Proof.
  unfold convert_year, load_data.
  split; [|split; [|split; [|split; [|split]]]].
  - intros Hc df' H. rewrite Hc in H. apply assign_year_Ok in H. tauto.
  - intros Hc. rewrite Hc. now apply assign_year_total.
  - intros Hc Hy df' H. rewrite Hc, Hy in H. apply assign_year_Ok in H. tauto.
  - intros Hc Hy. rewrite Hc, Hy. now apply assign_year_total.
  - intros Hc Hy. now rewrite Hc, Hy.
  - intros Hc df' H. rewrite Hc in H. apply bind_Ok in H as (df1 & H1 & H).
    exists df1. apply assign_year_Ok in H1. tauto.
Qed.

Lemma convert_year_sources_witness :
  has_column sample "Year" = true /\
  Forall2 (year_from "Crop_Year") (rows sample) (rows sample).
Proof.
  exact (proj1 (convert_year_sources sample) eq_refl sample eq_refl).
Defined.

(** C9 as the specification states it fails on the code: with neither a
    [Crop_Year] nor a [Year] column the cleaners raise nothing. *)
Lemma convert_year_no_schema_error :
  has_column two_records "Crop_Year" = false /\
  has_column two_records "Year" = false /\
  convert_year two_records = Ok two_records /\
  (exists df', clean two_records = Ok df') /\
  (exists df', load_data two_records = Ok df').
Proof. repeat split; try reflexivity; eexists; reflexivity. Qed.

(** ** What the cleaners retain *)

Lemma Forall2_In_l {A B} (R : A -> B -> Prop) l l' x :
  Forall2 R l l' -> In x l -> exists y, In y l' /\ R x y.
Proof.
  induction 1 as [|a b l l' Hab _ IH]; intros Hx; [destruct Hx|].
  destruct Hx as [<-|Hx]; [exists b; simpl; auto|].
  destruct (IH Hx) as (y & Hy & HR). exists y. simpl. auto.
Qed.

Lemma year_from_fields source r r' :
  year_from source r r' -> forall c, c <> "Year" -> r' !! c = r !! c.
Proof. intros (z & _ & ->) c Hc. now apply lookup_insert_ne. Qed.

Lemma same_fields_outlier (r r' : gmap string cell) :
  (forall c, c <> "Year" -> r' !! c = r !! c) -> is_outlier r' = is_outlier r.
Proof.
  intros H. unfold is_outlier, area_positive, production_zero, at_.
  now rewrite !H by discriminate.
Qed.

(** The year conversions change no field but [Year]. *)
Lemma year_step_fields df df1 :
  convert_year df = Ok df1 \/
  (if has_column df "Crop_Year"
   then do s <- getitem df "Crop_Year" ;; do v <- astype_int s ;; setitem df "Year" v
   else Ok df) = Ok df1 ->
  forall r, In r (rows df) ->
    exists r1, In r1 (rows df1) /\ forall c, c <> "Year" -> r1 !! c = r !! c.
Proof.
  unfold convert_year. intros H r Hr.
  assert (Hcases : df1 = df \/ exists source, Forall2 (year_from source) (rows df) (rows df1)).
  { destruct H as [H|H]; destruct (has_column df "Crop_Year").
    - right. exists "Crop_Year". now apply assign_year_Ok in H.
    - destruct (has_column df "Year").
      + right. exists "Year". now apply assign_year_Ok in H.
      + left. congruence.
    - right. exists "Crop_Year". now apply assign_year_Ok in H.
    - left. congruence. }
  destruct Hcases as [->|[source HF]]; [eauto|].
  destruct (Forall2_In_l _ _ _ _ HF Hr) as (r1 & Hr1 & Hy).
  exists r1. split; [exact Hr1 | now apply year_from_fields with source].
Qed.

(** C10. The removal step keeps every row that the mask does not select, as
    the same row (every field as it was), and keeps the column labels; so a row
    whose Area is 0 stays whatever its Production, and a row whose Production is
    positive stays whatever its Area.  Without an Area or a Production column
    every row stays.  Through the whole cleaner, which sets [Year] before it
    removes rows, such a row stays with every field but [Year] as it was. *)
Theorem remove_outliers_retains :
  (forall df df', remove_outliers df = Ok df' ->
     columns df' = columns df /\
     (forall r, In r (rows df) -> is_outlier r = false -> In r (rows df')) /\
     (forall r q, In r (rows df) -> num (at_ r "Area") = Some q -> (q == 0)%Q ->
                  In r (rows df')) /\
     (forall r p, In r (rows df) -> num (at_ r "Production") = Some p -> (0 < p)%Q ->
                  In r (rows df')) /\
     (forall r, In r (rows df') -> In r (rows df))) /\
  (forall df df', clean df = Ok df' \/ load_data df = Ok df' ->
     forall r, In r (rows df) -> is_outlier r = false ->
       exists r', In r' (rows df') /\ forall c, c <> "Year" -> r' !! c = r !! c).
Proof.
  split.
  - intros df df' H. pose proof (remove_outliers_columns _ _ H) as Hc.
    pose proof (remove_outliers_keeps _ _ H) as Hkeep.
    split; [exact Hc|]. split; [exact Hkeep|]. split; [|split].
    + intros r q Hr Hq Hz. apply Hkeep; [exact Hr|].
      unfold is_outlier, area_positive. rewrite Hq. unfold Qgtb.
      replace (Qle_bool q 0) with true; [reflexivity|].
      symmetry. apply Qle_bool_iff. rewrite Hz. apply Qle_refl.
    + intros r p Hr Hp Hpos. apply Hkeep; [exact Hr|].
      unfold is_outlier, production_zero, eq_num_cell. rewrite Hp.
      replace (Qeq_bool p 0) with false; [apply andb_false_r|].
      symmetry. apply not_true_iff_false. intros Heq. apply Qeq_bool_iff in Heq.
      rewrite Heq in Hpos. now apply Qlt_irrefl in Hpos.
    + intros r Hr. apply remove_outliers_Ok in H. subst df'.
      destruct (has_column df "Area" && has_column df "Production"); [|exact Hr].
      simpl in Hr. now apply List.filter_In in Hr.
  - intros df df' H r Hr Hout.
    assert (Hsteps : exists df1,
      (convert_year df = Ok df1 \/
       (if has_column df "Crop_Year"
        then do s <- getitem df "Crop_Year" ;; do v <- astype_int s ;; setitem df "Year" v
        else Ok df) = Ok df1) /\ remove_outliers df1 = Ok df').
    { unfold clean, load_data in H.
      destruct H as [H|H]; apply bind_Ok in H as (df1 & H1 & H); eauto. }
    destruct Hsteps as (df1 & H1 & H2).
    destruct (year_step_fields _ _ H1 r Hr) as (r1 & Hr1 & Hsame).
    exists r1. split; [|exact Hsame].
    apply (remove_outliers_keeps _ _ H2); [exact Hr1|].
    now rewrite (same_fields_outlier r r1 Hsame).
Qed.

Lemma remove_outliers_retains_witness :
  In record_B (rows {| columns := columns two_records; rows := [record_B] |}).
Proof.
  exact (proj1 (proj2 (proj1 remove_outliers_retains two_records
                         {| columns := columns two_records; rows := [record_B] |}
                         eq_refl))
           record_B (or_intror (or_introl eq_refl)) eq_refl).
Defined.

(** ** Ranking *)














(** ** The rainfall insight *)

Lemma float_gt_Some c t : float_gt (Some c) t = true <-> (t < c)%R.
Proof. simpl. destruct (Rlt_dec t c); split; intros; try discriminate; tauto. Qed.

Lemma float_lt_Some c t : float_lt (Some c) t = true <-> (c < t)%R.
Proof. simpl. destruct (Rlt_dec c t); split; intros; try discriminate; tauto. Qed.

Lemma rainfall_impact_cases (c : R) :
  ((3 / 10 < c)%R /\ rainfall_impact (Some c) = positive_impact) \/
  ((c < - (3 / 10))%R /\ rainfall_impact (Some c) = negative_impact) \/
  ((- (3 / 10) <= c <= 3 / 10)%R /\ rainfall_impact (Some c) = minimal_impact).
Proof.
  unfold rainfall_impact. simpl.
  destruct (Rlt_dec (3 / 10) c) as [Hgt|Hgt]; [left; auto|].
  destruct (Rlt_dec c (- (3 / 10))) as [Hlt|Hlt]; [right; left; auto|].
  right. right. split; [lra | reflexivity].
Qed.

Lemma Q2R_three_tenths : Q2R (3 # 10) = (3 / 10)%R.
Proof. unfold Q2R. simpl. lra. Qed.

(** The rational chain computes what the real one defines. *)
Lemma rainfall_impact_Q_real (q : Q) :
  rainfall_impact_Q (Some q) = rainfall_impact (Some (Q2R q)).
Proof.
  unfold rainfall_impact_Q, rainfall_impact. simpl.
  destruct (Rlt_dec (3 / 10) (Q2R q)) as [Hgt|Hgt].
  - rewrite <- Q2R_three_tenths in Hgt. apply Rlt_Qlt, Qltb_lt in Hgt. now rewrite Hgt.
  - replace (Qltb (3 # 10) q) with false.
    2:{ symmetry. apply not_true_iff_false. intros H. apply Qltb_lt, Qlt_Rlt in H.
        rewrite Q2R_three_tenths in H. contradiction. }
    destruct (Rlt_dec (Q2R q) (- (3 / 10))) as [Hlt|Hlt].
    + rewrite <- Q2R_three_tenths, <- Q2R_opp in Hlt.
      apply Rlt_Qlt, Qltb_lt in Hlt. now rewrite Hlt.
    + replace (Qltb q (- (3 # 10))) with false; [reflexivity|].
      symmetry. apply not_true_iff_false. intros H. apply Qltb_lt, Qlt_Rlt in H.
      rewrite Q2R_opp, Q2R_three_tenths in H. contradiction.
Qed.

(** C2. The insight chain puts every real coefficient in exactly one band:
    positive impact exactly above 0.3, negative impact exactly below -0.3, and
    minimal impact exactly on the closed interval between them, both thresholds
    included.  So 0.35 is positive, 0.30 and -0.30 are minimal, -0.5 is
    negative. *)
Theorem rainfall_impact_bands (c : R) :
  (rainfall_impact (Some c) = positive_impact <-> (c > 3 / 10)%R) /\
  (rainfall_impact (Some c) = negative_impact <-> (c < - (3 / 10))%R) /\
  (rainfall_impact (Some c) = minimal_impact <-> (- (3 / 10) <= c <= 3 / 10)%R) /\
  rainfall_impact (Some (35 / 100)%R) = positive_impact /\
  rainfall_impact (Some (30 / 100)%R) = minimal_impact /\
  rainfall_impact (Some (- (30 / 100))%R) = minimal_impact /\
  rainfall_impact (Some (- (5 / 10))%R) = negative_impact /\
  rainfall_impact_Q (Some (35 # 100)) = positive_impact /\
  rainfall_impact_Q (Some (30 # 100)) = minimal_impact /\
  rainfall_impact_Q (Some (- (5 # 10))%Q) = negative_impact.
Proof.
  assert (Hband : forall x : R,
    (rainfall_impact (Some x) = positive_impact <-> (x > 3 / 10)%R) /\
    (rainfall_impact (Some x) = negative_impact <-> (x < - (3 / 10))%R) /\
    (rainfall_impact (Some x) = minimal_impact <-> (- (3 / 10) <= x <= 3 / 10)%R)).
  { intros x.
    destruct (rainfall_impact_cases x) as [[H ->]|[[H ->]|[H ->]]];
      (split; [|split]); split; intros; try discriminate; try reflexivity; lra. }
  destruct (Hband c) as (Hp & Hn & Hm).
  split; [exact Hp|]. split; [exact Hn|]. split; [exact Hm|].
  split; [apply (Hband (35 / 100)%R); lra|].
  split; [apply (Hband (30 / 100)%R); lra|].
  split; [apply (Hband (- (30 / 100))%R); lra|].
  split; [apply (Hband (- (5 / 10))%R); lra|].
  repeat split; reflexivity.
Qed.

Lemma rainfall_impact_bands_witness :
  rainfall_impact (Some (1 / 2)%R) = positive_impact.
Proof.
  apply (proj1 (rainfall_impact_bands (1 / 2)%R)). lra.
Defined.

(** ** Pearson correlation *)




























(** ** The grouped aggregates return *)

Lemma dropna_total (s : list cell) :
  Forall (fun c => is_text c = false) s -> exists vs, dropna s = Ok vs.
Proof.
  induction 1 as [|c s Hc _ [vs IH]]; simpl; [eauto|].
  destruct c; try discriminate; rewrite ?IH; simpl; eauto.
Qed.

Lemma group_values_not_text ks vs k :
  Forall (fun c => is_text c = false) vs ->
  Forall (fun c => is_text c = false) (group_values ks vs k).
Proof.
  intros H. revert ks. induction H as [|v vs Hv _ IH]; intros [|x ks]; simpl;
    try constructor.
  destruct (key_eqb x k); [constructor; auto | auto].
Qed.

(** On a key column that exists and a metric column without text both
    aggregations return. *)
Lemma groupby_total df key metric :
  has_column df key = true -> numeric_column df metric ->
  (exists agg, groupby_mean df key metric = Ok agg) /\
  (exists agg, groupby_sum df key metric = Ok agg).
Proof.
  intros Hk [Hm Htext]. unfold groupby_mean, groupby_sum, groupby_agg.
  rewrite !getitem_has by assumption. simpl.
  set (ks := map (fun r => at_ r key) (rows df)).
  set (vs := map (fun r => at_ r metric) (rows df)).
  assert (Hvs : Forall (fun c => is_text c = false) vs).
  { apply List.Forall_forall. intros c Hc. apply List.in_map_iff in Hc.
    destruct Hc as (r & <- & Hr). rewrite List.Forall_forall in Htext. now apply Htext. }
  split.
  - destruct (traverse_raise_or_Ok
                (fun k => do v <- series_mean (group_values ks vs k) ;; Ok (k, v))
                (group_keys ks)) as [H|(k & e & _ & Hf & _)]; [exact H|].
    unfold series_mean in Hf.
    destruct (dropna_total _ (group_values_not_text ks vs k Hvs)) as [l Hl].
    rewrite Hl in Hf. discriminate.
  - destruct (traverse_raise_or_Ok
                (fun k => do v <- series_sum (group_values ks vs k) ;; Ok (k, v))
                (group_keys ks)) as [H|(k & e & _ & Hf & _)]; [exact H|].
    unfold series_sum in Hf.
    destruct (dropna_total _ (group_values_not_text ks vs k Hvs)) as [l Hl].
    rewrite Hl in Hf. discriminate.
Qed.

(** ** The thresholds on float64 *)

Lemma Qltb_iff x y x' y' :
  ((x < y)%Q <-> (x' < y')%Q) -> Qltb x y = Qltb x' y'.
Proof.
  intros H. destruct (Qltb x' y') eqn:E.
  - apply Qltb_lt. apply H. now apply Qltb_lt.
  - apply not_true_iff_false. intros E'. apply Qltb_lt in E'.
    apply H, Qltb_lt in E'. congruence.
Qed.

(** No float64 lies between the float64 that [0.3] denotes and three tenths,
    nor between their opposites. *)
Lemma no_float_at_threshold (m e : Z) :
  Z.abs m < 2 ^ 53 ->
  ((float_three_tenths < binary64 m e)%Q <-> (3 # 10 < binary64 m e)%Q) /\
  ((binary64 m e < - float_three_tenths)%Q <-> (binary64 m e < - (3 # 10))%Q).
Proof.
  intros Hm. unfold float_three_tenths.
  change (binary64 5404319552844595 (-54))
    with (5404319552844595 # 18014398509481984).
  change (2 ^ 53) with 9007199254740992 in Hm.
  unfold binary64. destruct (0 <=? e) eqn:He.
  - unfold Qlt. simpl. lia.
  - apply Z.leb_gt in He.
    assert (Hp : 0 < 2 ^ (- e)) by (apply Z.pow_pos_nonneg; lia).
    unfold Qlt. simpl. rewrite Z2Pos.id by exact Hp.
    set (P := 2 ^ (- e)) in *.
    destruct (Z.le_gt_cases (- e) 54) as [Hk|Hk].
    + set (T := 2 ^ (54 - - e)).
      assert (HT : 0 < T) by (apply Z.pow_pos_nonneg; lia).
      assert (HPT : P * T = 18014398509481984).
      { unfold P, T. rewrite <- Z.pow_add_r by lia.
        replace (- e + (54 - - e)) with 54 by lia. reflexivity. }
      assert (H1 : forall a b, a * P < b * 18014398509481984 <-> a < b * T).
      { intros a b. rewrite <- HPT.
        replace (b * (P * T)) with (b * T * P) by ring.
        symmetry. apply Z.mul_lt_mono_pos_r. exact Hp. }
      assert (H2 : forall a b, a * P < b * 10 <-> a * 18014398509481984 < b * T * 10).
      { intros a b. rewrite <- HPT.
        replace (a * (P * T)) with (a * P * T) by ring.
        replace (b * T * 10) with (b * 10 * T) by ring.
        apply Z.mul_lt_mono_pos_r. exact HT. }
      assert (H3 : forall a b, b * 18014398509481984 < a * P <-> b * T < a).
      { intros a b. rewrite <- HPT.
        replace (b * (P * T)) with (b * T * P) by ring.
        symmetry. apply Z.mul_lt_mono_pos_r. exact Hp. }
      assert (H4 : forall a b, b * 10 < a * P <-> b * T * 10 < a * 18014398509481984).
      { intros a b. rewrite <- HPT.
        replace (a * (P * T)) with (a * P * T) by ring.
        replace (b * T * 10) with (b * 10 * T) by ring.
        apply Z.mul_lt_mono_pos_r. exact HT. }
      split.
      * rewrite H1, H2. lia.
      * rewrite H3, (H4 (-3)). lia.
    + assert (HP : 36028797018963968 <= P).
      { change 36028797018963968 with (2 ^ 55). unfold P.
        apply Z.pow_le_mono_r; lia. }
      split; lia.
Qed.

(** On a float64 coefficient the chain with the thresholds that the literals
    denote and the chain with three tenths agree. *)
Lemma rainfall_impact_on_floats (m e : Z) :
  Z.abs m < 2 ^ 53 ->
  rainfall_impact_float (binary64 m e) = rainfall_impact_Q (Some (binary64 m e)).
Proof.
  intros Hm. destruct (no_float_at_threshold m e Hm) as [Hp Hn].
  unfold rainfall_impact_float, rainfall_impact_Q.
  now rewrite (Qltb_iff _ _ _ _ Hp), (Qltb_iff _ _ _ _ Hn).
Qed.

(** * Further properties of the scripts *)

(** ** Outlier removal *)

Lemma outliers_Ok df o :
  outliers df = Ok o -> o = restrict is_outlier df.
Proof.
  unfold outliers. intros H. inv_binds.
  match goal with H : series_gt _ _ = Ok _ |- _ => apply gt_rows in H; subst end.
  unfold series_eq in H. rewrite map_map, and_map, getitem_mask_map in H.
  now injection H as <-.
Qed.

Lemma filter_split_length {A} (p : A -> bool) (xs : list A) :
  (length (List.filter p xs) + length (List.filter (fun x => negb (p x)) xs)
   = length xs)%nat.
Proof.
  induction xs as [|x xs IH]; simpl; [reflexivity|].
  destruct (p x); simpl; lia.
Qed.

Lemma remove_outliers_report_Ok df c df' :
  has_column df "Area" && has_column df "Production" = true ->
  remove_outliers_report df = Ok (c, df') ->
  c = Some (length (List.filter is_outlier (rows df))) /\ df' = keep_rows df.
Proof.
  unfold remove_outliers_report. intros -> H.
  apply bind_Ok in H as (found & Hfound & H).
  apply outliers_Ok in Hfound. subst found.
  apply bind_Ok in H as (area & Harea & H). apply getitem_Ok in Harea. subst area.
  apply bind_Ok in H as (pos & Hpos & H). apply gt_rows in Hpos. subst pos.
  apply bind_Ok in H as (prod & Hprod & H). apply getitem_Ok in Hprod. subst prod.
  apply bind_Ok in H as (kept & Hkept & H).
  unfold series_eq, invert in Hkept.
  rewrite map_map, and_map, map_map, getitem_mask_map in Hkept.
  injection Hkept as <-. injection H as <- <-. auto.
Qed.

(** X1. The number of outliers the script prints and the rows it keeps add up
    to the rows it had: every row is either counted as an outlier or kept,
    never both.  Without an Area or a Production column nothing is counted and
    the frame is returned as it is. *)
Theorem outlier_report_counts df c df' :
  remove_outliers_report df = Ok (c, df') ->
  match c with
  | Some n =>
      n = length (List.filter is_outlier (rows df)) /\
      (n + length (rows df') = length (rows df))%nat /\
      (forall r, In r (rows df) ->
                 (is_outlier r = true /\ ~ In r (rows df')) \/
                 (is_outlier r = false /\ In r (rows df')))
  | None => df' = df
  end.
Proof.
  intros H.
  destruct (has_column df "Area" && has_column df "Production") eqn:Hc.
  - destruct (remove_outliers_report_Ok _ _ _ Hc H) as [-> ->].
    split; [reflexivity|]. split; [apply filter_split_length|].
    intros r Hr. simpl. destruct (is_outlier r) eqn:E; [left|right]; split; auto.
    + intros Hin. apply List.filter_In in Hin. rewrite E in Hin. now destruct Hin.
    + apply List.filter_In. now rewrite E.
  - unfold remove_outliers_report in H. rewrite Hc in H. now injection H as <- <-.
Qed.

Lemma outlier_report_counts_witness :
  (1 + length [record_B] = length (rows two_records))%nat.
Proof.
  exact (proj1 (proj2 (outlier_report_counts two_records (Some 1%nat)
                         {| columns := columns two_records; rows := [record_B] |}
                         eq_refl))).
Defined.

Lemma all_or_some {A} (p : A -> bool) (xs : list A) :
  Forall (fun x => p x = false) xs \/ Exists (fun x => p x = true) xs.
Proof.
  induction xs as [|x xs [IH|IH]].
  - left. constructor.
  - destruct (p x) eqn:E; [right; now constructor | left; now constructor].
  - right. now constructor 2.
Qed.

Lemma remove_outliers_text df df' :
  has_column df "Area" && has_column df "Production" = true ->
  remove_outliers df = Ok df' ->
  Forall (fun r => is_text (at_ r "Area") = false) (rows df).
Proof.
  intros Hc H. unfold remove_outliers, remove_outliers_report, outliers in H.
  rewrite Hc in H.
  apply bind_Ok in H as (p & H & _). apply bind_Ok in H as (found & H & _).
  apply bind_Ok in H as (area & Harea & H). apply getitem_Ok in Harea. subst area.
  apply bind_Ok in H as (pos & Hpos & _).
  unfold series_gt in Hpos. now apply traverse_cmp_Ok in Hpos.
Qed.

Lemma remove_outliers_run df :
  has_column df "Area" && has_column df "Production" = true ->
  Forall (fun r => is_text (at_ r "Area") = false) (rows df) ->
  remove_outliers df = Ok (keep_rows df).
Proof.
  intros Hc Hnum. destruct (remove_outliers_total df Hnum) as [df' H].
  rewrite H. f_equal. apply remove_outliers_Ok in H. now rewrite Hc in H.
Qed.

Lemma remove_outliers_raise df :
  has_column df "Area" && has_column df "Production" = true ->
  Exists (fun r => is_text (at_ r "Area") = true) (rows df) ->
  remove_outliers df = Raise TypeError.
Proof.
  intros Hc Htext. apply andb_true_iff in Hc as [HA HP].
  unfold remove_outliers, remove_outliers_report, outliers.
  rewrite HA, HP. simpl. rewrite !getitem_has by assumption. simpl.
  unfold series_gt. rewrite traverse_map.
  assert (Hr : traverse (fun r => cmp_cell Qgtb 0 (at_ r "Area")) (rows df) = Raise TypeError).
  { induction Htext as [r rs Hr|r rs _ IH]; simpl.
    - destruct (at_ r "Area"); try discriminate. reflexivity.
    - destruct (at_ r "Area"); simpl; try reflexivity; now rewrite IH. }
  now rewrite Hr.
Qed.

Lemma remove_outliers_again df df' :
  remove_outliers df = Ok df' -> remove_outliers df' = Ok df'.
Proof.
  intros H. pose proof (remove_outliers_Ok _ _ H) as Hdf'.
  destruct (has_column df "Area" && has_column df "Production") eqn:Hc.
  - pose proof (remove_outliers_text _ _ Hc H) as Hnum. subst df'.
    rewrite remove_outliers_run.
    + f_equal. unfold keep_rows. simpl. f_equal. rewrite filter_twice.
      apply List.filter_ext. intros r. apply andb_diag.
    + exact Hc.
    + simpl. now apply filter_Forall.
  - subst df'. exact H.
Qed.

(** X2. Removing outliers a second time changes nothing: on the frame the step
    returns, the step succeeds and returns that frame. *)
Theorem remove_outliers_idempotent df df' :
  remove_outliers df = Ok df' -> remove_outliers df' = Ok df'.
Proof. apply remove_outliers_again. Qed.

Lemma remove_outliers_idempotent_witness :
  remove_outliers {| columns := columns two_records; rows := [record_B] |}
  = Ok {| columns := columns two_records; rows := [record_B] |}.
Proof. exact (remove_outliers_idempotent two_records _ eq_refl). Defined.

(** X3. With both columns present the removal step raises exactly when some
    Area cell is text, and what it raises is TypeError; text in Production
    never makes it raise.  Whenever it does not raise it returns the rows that
    are not outliers, in their order. *)
Theorem remove_outliers_raises df :
  has_column df "Area" = true -> has_column df "Production" = true ->
  (Exists (fun r => is_text (at_ r "Area") = true) (rows df) ->
   remove_outliers df = Raise TypeError) /\
  (Forall (fun r => is_text (at_ r "Area") = false) (rows df) ->
   remove_outliers df
   = Ok {| columns := columns df;
           rows := List.filter (fun r => negb (is_outlier r)) (rows df) |}) /\
  (forall e, remove_outliers df = Raise e ->
     e = TypeError /\ Exists (fun r => is_text (at_ r "Area") = true) (rows df)).
Proof.
  intros HA HP.
  assert (Hc : has_column df "Area" && has_column df "Production" = true)
    by now rewrite HA, HP.
  split; [now apply remove_outliers_raise|].
  split; [now apply remove_outliers_run|].
  intros e He.
  destruct (all_or_some (fun r => is_text (at_ r "Area")) (rows df)) as [Hall|Hex].
  - rewrite (remove_outliers_run df Hc Hall) in He. discriminate.
  - rewrite (remove_outliers_raise df Hc Hex) in He. injection He as <-. auto.
Qed.

Lemma remove_outliers_raises_witness :
  remove_outliers
    {| columns := ["Area"; "Production"];
       rows := [ {[ "Area" := Str "n/a"; "Production" := Int 0 ]} ] |}
  = Raise TypeError.
Proof.
  refine (proj1 (remove_outliers_raises
                   {| columns := ["Area"; "Production"];
                      rows := [ {[ "Area" := Str "n/a"; "Production" := Int 0 ]} ] |}
                   eq_refl eq_refl) _).
  constructor. reflexivity.
Defined.

(** ** The sidebar filters *)

Lemma label_ok_iff c selected all r :
  label_ok c selected all r = true <-> selected_label c selected all r.
Proof.
  unfold label_ok, selected_label, eq_str_cell. rewrite orb_true_iff, String.eqb_eq.
  split; (intros [H|H]; [now left|right]).
  - destruct (at_ r c); try discriminate. apply String.eqb_eq in H. now subst.
  - rewrite H. apply String.eqb_refl.
Qed.

Lemma year_ok_iff yr r : year_ok yr r = true <-> selected_year yr r.
Proof.
  unfold year_ok, selected_year, cmp_view, Qgeb. destruct (num (at_ r "Year")) as [q|].
  - rewrite andb_true_iff, !Qle_bool_iff. split.
    + intros H. exists q. auto.
    + intros (q' & [= <-] & H). exact H.
  - split; [discriminate | intros (q & Hq & _); discriminate].
Qed.

Lemma matches_iff s c n yr r :
  matches s c n yr r = true <-> selected_row s c n yr r.
Proof.
  unfold matches, selected_row.
  rewrite !andb_true_iff, !label_ok_iff, year_ok_iff. tauto.
Qed.

Lemma filter_sublist {A} (p : A -> bool) (xs : list A) : sublist (List.filter p xs) xs.
Proof.
  induction xs as [|x xs IH]; simpl; [constructor|].
  destruct (p x); now constructor.
Qed.

(** X4. The filtered frame has the columns of the frame and exactly its rows
    that pass the selection, in their original order: a row passes when its
    State, Crop and Season equal the selected values (an "All ..." selection
    passes every row) and its Year is a number within the range, both ends
    included. *)
Theorem apply_filters_selects df s c n yr df' :
  apply_filters df s c n yr = Ok df' ->
  columns df' = columns df /\
  (forall r, In r (rows df') <-> In r (rows df) /\ selected_row s c n yr r) /\
  sublist (rows df') (rows df).
Proof.
  intros H. apply apply_filters_Ok in H. destruct H as [-> _]. simpl.
  split; [reflexivity|]. split; [|apply filter_sublist].
  intros r. rewrite List.filter_In, matches_iff. tauto.
Qed.

Lemma apply_filters_selects_witness :
  sublist (rows (restrict (matches "Bihar" "All Crops" "Kharif" (1998, 1999)) sample))
          (rows sample).
Proof.
  refine (proj2 (proj2 (apply_filters_selects sample "Bihar" "All Crops" "Kharif"
                          (1998, 1999) _ _))).
  vm_compute. reflexivity.
Defined.

Lemma filters_run_restrict df s c n p :
  filters_run df s c n -> filters_run (restrict p df) s c n.
Proof.
  intros (H1 & H2 & H3 & Hy & Hnum). repeat split; try assumption.
  simpl. apply List.Forall_forall. intros r Hr.
  apply List.filter_In in Hr. destruct Hr as [Hr Hl].
  apply List.filter_In in Hr. destruct Hr as [Hr _].
  rewrite List.Forall_forall in Hnum. apply Hnum. apply List.filter_In. auto.
Qed.

Lemma year_ok_narrow yr yr' r :
  (fst yr <= fst yr')%Z -> (snd yr' <= snd yr)%Z ->
  year_ok yr' r = true -> year_ok yr r = true.
Proof.
  intros Hlo Hhi. rewrite !year_ok_iff. intros (q & Hq & H1 & H2).
  exists q. split; [exact Hq|]. rewrite Zle_Qle in Hlo, Hhi. split; lra.
Qed.

(** X5. Narrowing the year range on an already filtered frame gives what the
    narrower selection gives on the whole frame: with the same State, Crop and
    Season, filtering the result of a wider range equals filtering the frame
    itself. *)
Theorem apply_filters_narrow df s c n yr yr' df1 :
  apply_filters df s c n yr = Ok df1 ->
  (fst yr <= fst yr')%Z -> (snd yr' <= snd yr)%Z ->
  apply_filters df1 s c n yr' = apply_filters df s c n yr' /\
  exists df2, apply_filters df s c n yr' = Ok df2.
Proof.
  intros H Hlo Hhi. apply apply_filters_Ok in H. destruct H as [-> Hrun].
  rewrite (apply_filters_total df s c n yr' Hrun).
  rewrite (apply_filters_total _ s c n yr' (filters_run_restrict _ _ _ _ _ Hrun)).
  split; [|eauto]. f_equal. rewrite restrict_restrict. apply restrict_ext.
  intros r. unfold matches.
  destruct (year_ok yr' r) eqn:E.
  - rewrite (year_ok_narrow yr yr' r Hlo Hhi E).
    destruct (label_ok "State" s "All States" r), (label_ok "Crop" c "All Crops" r),
      (label_ok "Season" n "All Seasons" r); reflexivity.
  - now rewrite !andb_false_r.
Qed.

Lemma apply_filters_narrow_witness :
  apply_filters (restrict (matches "All States" "Rice" "All Seasons" (1997, 1999)) sample)
    "All States" "Rice" "All Seasons" (1998, 1999)
  = apply_filters sample "All States" "Rice" "All Seasons" (1998, 1999).
Proof.
  refine (proj1 (apply_filters_narrow sample "All States" "Rice" "All Seasons"
                   (1997, 1999) (1998, 1999) _ _ _ _)).
  - vm_compute. reflexivity.
  - simpl. lia.
  - simpl. lia.
Defined.

(** X6. The filters read a label column only for a selection other than
    "All ...": a selected State, Crop or Season whose column is absent raises
    KeyError for the first such column, and with every read label column
    present an absent Year column raises KeyError for Year. *)
Theorem apply_filters_missing_column df s c n yr :
  (String.eqb s "All States" = false -> has_column df "State" = false ->
   apply_filters df s c n yr = Raise (KeyError "State")) /\
  ((String.eqb s "All States" = false -> has_column df "State" = true) ->
   String.eqb c "All Crops" = false -> has_column df "Crop" = false ->
   apply_filters df s c n yr = Raise (KeyError "Crop")) /\
  ((String.eqb s "All States" = false -> has_column df "State" = true) ->
   (String.eqb c "All Crops" = false -> has_column df "Crop" = true) ->
   String.eqb n "All Seasons" = false -> has_column df "Season" = false ->
   apply_filters df s c n yr = Raise (KeyError "Season")) /\
  ((String.eqb s "All States" = false -> has_column df "State" = true) ->
   (String.eqb c "All Crops" = false -> has_column df "Crop" = true) ->
   (String.eqb n "All Seasons" = false -> has_column df "Season" = true) ->
   has_column df "Year" = false ->
   apply_filters df s c n yr = Raise (KeyError "Year")).
Proof.
  rewrite apply_filters_steps.
  split; [|split; [|split]].
  - intros Hs Hc. unfold label_step at 1, filter_eq, getitem. now rewrite Hs, Hc.
  - intros H1 Hs Hc. rewrite label_step_total by exact H1. simpl.
    unfold label_step at 1, filter_eq, getitem. rewrite Hs.
    change (has_column (restrict (label_ok "State" s "All States") df) "Crop")
      with (has_column df "Crop"). now rewrite Hc.
  - intros H1 H2 Hs Hc. rewrite label_step_total by exact H1. simpl.
    rewrite label_step_total by exact H2. simpl.
    unfold label_step at 1, filter_eq, getitem. rewrite Hs.
    match goal with |- context [has_column ?f "Season"] =>
      change (has_column f "Season") with (has_column df "Season") end.
    now rewrite Hc.
  - intros H1 H2 H3 Hy. rewrite label_step_total by exact H1. simpl.
    rewrite label_step_total by exact H2. simpl.
    rewrite label_step_total by exact H3. simpl.
    unfold year_step, getitem.
    match goal with |- context [has_column ?f "Year"] =>
      change (has_column f "Year") with (has_column df "Year") end.
    now rewrite Hy.
Qed.

Lemma apply_filters_missing_column_witness :
  apply_filters two_records "A" "All Crops" "All Seasons" (1997, 2020)
  = Raise (KeyError "Year").
Proof.
  refine (proj2 (proj2 (proj2 (apply_filters_missing_column two_records
            "A" "All Crops" "All Seasons" (1997, 2020)))) _ _ _ _);
    try reflexivity; discriminate.
Defined.

(** ** The bounds of the year slider *)

(** X7. On a Year column of integers the slider bounds are years of the frame,
    the least and the greatest: both occur in some row and every row's year
    lies between them. *)
Theorem year_bounds_least_greatest df lo hi :
  Forall (fun r => is_int (at_ r "Year")) (rows df) ->
  year_bounds df = Ok (lo, hi) ->
  (lo <= hi)%Z /\
  (exists r, In r (rows df) /\ at_ r "Year" = Int lo) /\
  (exists r, In r (rows df) /\ at_ r "Year" = Int hi) /\
  (forall r, In r (rows df) -> exists z, at_ r "Year" = Int z /\ (lo <= z <= hi)%Z).
Proof.
  intros Hint H. unfold year_bounds, getitem in H.
  destruct (has_column df "Year"); [|discriminate]. simpl in H.
  assert (Hs : Forall is_int (map (fun r => at_ r "Year") (rows df))).
  { apply List.Forall_forall. intros c Hc. apply List.in_map_iff in Hc.
    destruct Hc as (r & <- & Hr). rewrite List.Forall_forall in Hint. now apply Hint. }
  apply bind_Ok in H as (cmin & Hmin & H). apply bind_Ok in H as (zmin & Hzmin & H).
  apply bind_Ok in H as (cmax & Hmax & H). apply bind_Ok in H as (zmax & Hzmax & H).
  injection H as <- <-.
  apply (reduce_ints _ _ _ Hs) in Hmin. apply (reduce_ints _ _ _ Hs) in Hmax.
  destruct (map (fun r => at_ r "Year") (rows df)) as [|v vs] eqn:Ey.
  { subst cmin. discriminate. }
  destruct (fold_cell_min vs v) as [Hin_min Hle_min].
  destruct (fold_cell_max vs v) as [Hin_max Hle_max].
  rewrite <- Hmin in Hin_min, Hle_min. rewrite <- Hmax in Hin_max, Hle_max.
  rewrite List.Forall_forall in Hs.
  destruct (Hs _ Hin_min) as [a ->]. destruct (Hs _ Hin_max) as [b ->].
  simpl in Hzmin, Hzmax. injection Hzmin as <-. injection Hzmax as <-.
  assert (Hrange : forall r, In r (rows df) ->
            exists z, at_ r "Year" = Int z /\ (a <= z <= b)%Z).
  { intros r Hr.
    assert (Hc : In (at_ r "Year") (v :: vs)).
    { rewrite <- Ey. apply List.in_map_iff. eauto. }
    destruct (Hs _ Hc) as [z Hz]. exists z. split; [exact Hz|].
    specialize (Hle_min _ Hc). specialize (Hle_max _ Hc).
    rewrite Hz in Hle_min, Hle_max. unfold value in Hle_min, Hle_max.
    simpl in Hle_min, Hle_max. split; now apply Qle_inject_Z. }
  rewrite <- Ey in Hin_min, Hin_max.
  apply List.in_map_iff in Hin_min, Hin_max.
  destruct Hin_min as (rmin & Hrmin & Hin_min), Hin_max as (rmax & Hrmax & Hin_max).
  split; [|split; [eauto | split; [eauto | exact Hrange]]].
  destruct (Hrange rmin Hin_min) as (z & Hz & Hle). rewrite Hrmin in Hz.
  injection Hz as <-. lia.
Qed.

Lemma year_bounds_least_greatest_witness : (1997 <= 1999)%Z.
Proof.
  refine (proj1 (year_bounds_least_greatest sample 1997 1999 _ _)).
  - repeat constructor; eexists; reflexivity.
  - reflexivity.
Defined.

Lemma dropna_missing (s : list cell) :
  Forall (fun c => isna c = true) s -> dropna s = Ok [].
Proof.
  induction 1 as [|c s Hc _ IH]; [reflexivity|].
  destruct c; try discriminate. exact IH.
Qed.

(** X8. The slider cannot be set up on a frame without years: without a Year
    column the bounds raise KeyError, also right after [load_data] on a source
    with neither Crop_Year nor Year, since [load_data] adds no such column; and
    with a Year column that holds no value, as on a frame without rows, they
    raise ValueError. *)
Theorem year_bounds_raises :
  (forall df, has_column df "Year" = false ->
     year_bounds df = Raise (KeyError "Year")) /\
  (forall raw df, has_column raw "Crop_Year" = false -> has_column raw "Year" = false ->
     load_data raw = Ok df -> year_bounds df = Raise (KeyError "Year")) /\
  (forall df, has_column df "Year" = true ->
     Forall (fun r => isna (at_ r "Year") = true) (rows df) ->
     year_bounds df = Raise ValueError).
Proof.
  assert (Hkey : forall df, has_column df "Year" = false ->
                   year_bounds df = Raise (KeyError "Year")).
  { intros df Hy. unfold year_bounds, getitem. now rewrite Hy. }
  split; [exact Hkey|]. split.
  - intros raw df Hc Hy H. apply Hkey. unfold load_data in H. rewrite Hc in H.
    simpl in H. apply remove_outliers_columns in H. unfold has_column in *.
    now rewrite H.
  - intros df Hy Hna. unfold year_bounds. rewrite getitem_has by exact Hy. simpl.
    unfold series_min, reduce. rewrite dropna_missing; [reflexivity|].
    apply List.Forall_forall. intros c Hc. apply List.in_map_iff in Hc.
    destruct Hc as (r & <- & Hr). rewrite List.Forall_forall in Hna. now apply Hna.
Qed.

Lemma year_bounds_raises_witness :
  year_bounds {| columns := columns two_records; rows := [record_B] |}
  = Raise (KeyError "Year").
Proof.
  exact (proj1 (proj2 year_bounds_raises) two_records _ eq_refl eq_refl eq_refl).
Defined.

(** ** The integer cast *)

Lemma Qtruncate_bounds (q : Q) :
  ((0 <= q)%Q -> (inject_Z (Qtruncate q) <= q)%Q /\ (q < inject_Z (Qtruncate q) + 1)%Q) /\
  ((q <= 0)%Q -> (q <= inject_Z (Qtruncate q))%Q /\ (inject_Z (Qtruncate q) - 1 < q)%Q).
Proof.
  destruct q as [n d]. unfold Qtruncate. simpl.
  pose proof (Z.quot_rem' n (Zpos d)) as Hqr.
  split; intros Hq; unfold Qle in Hq; simpl in Hq.
  - assert (Hn : (0 <= n)%Z) by lia.
    pose proof (Z.rem_bound_pos n (Zpos d) Hn ltac:(lia)) as Hm.
    unfold Qle, Qlt. simpl. split; nia.
  - assert (Hn : (n <= 0)%Z) by lia.
    pose proof (Z.rem_bound_pos (- n) (Zpos d) ltac:(lia) ltac:(lia)) as Hm.
    rewrite Z.rem_opp_l in Hm by lia.
    unfold Qle, Qlt. simpl. split; nia.
Qed.

(** X9. The cast of a float to integer rounds toward zero: the integer is the
    float without its fraction, for a positive float the greatest integer not
    above it and for a negative one the least integer not below it, as long as
    that integer fits int64; an integral float casts to its own value. *)
Theorem astype_int_truncates q z :
  astype_int_cell (Float q) = Ok z ->
  in_int64 (Qtruncate q) = true ->
  ((0 <= q)%Q -> (inject_Z z <= q)%Q /\ (q < inject_Z z + 1)%Q) /\
  ((q <= 0)%Q -> (q <= inject_Z z)%Q /\ (inject_Z z - 1 < q)%Q) /\
  (forall k, (q == inject_Z k)%Q -> z = k).
Proof.
  simpl. intros H Hin. rewrite Hin in H. injection H as <-.
  destruct (Qtruncate_bounds q) as [Hpos Hneg].
  split; [exact Hpos|]. split; [exact Hneg|].
  intros k Hk.
  assert (Hz : forall a b : Z, (inject_Z a <= inject_Z b)%Q -> (a <= b)%Z)
    by (intros a b Hab; now rewrite Zle_Qle).
  assert (Hz' : forall a b : Z, (inject_Z a < inject_Z b + 1)%Q -> (a <= b)%Z).
  { intros a b Hab. change 1%Q with (inject_Z 1) in Hab.
    rewrite <- inject_Z_plus, <- Zlt_Qlt in Hab. lia. }
  assert (Hz'' : forall a b : Z, (inject_Z a - 1 < inject_Z b)%Q -> (a <= b)%Z).
  { intros a b Hab. change 1%Q with (inject_Z 1) in Hab.
    unfold Qminus in Hab. rewrite <- inject_Z_opp, <- inject_Z_plus, <- Zlt_Qlt in Hab. lia. }
  destruct (Qlt_le_dec q 0) as [Hlt|Hge].
  - destruct (Hneg (Qlt_le_weak _ _ Hlt)) as [H1 H2].
    assert (H1' : (inject_Z k <= inject_Z (Qtruncate q))%Q)
      by (apply Qle_trans with q; [rewrite Hk; apply Qle_refl | exact H1]).
    assert (H2' : (inject_Z (Qtruncate q) - 1 < inject_Z k)%Q)
      by (apply Qlt_le_trans with q; [exact H2 | rewrite Hk; apply Qle_refl]).
    apply Hz in H1'. apply Hz'' in H2'. lia.
  - destruct (Hpos Hge) as [H1 H2].
    assert (H1' : (inject_Z (Qtruncate q) <= inject_Z k)%Q)
      by (apply Qle_trans with q; [exact H1 | rewrite Hk; apply Qle_refl]).
    assert (H2' : (inject_Z k < inject_Z (Qtruncate q) + 1)%Q)
      by (apply Qle_lt_trans with q; [rewrite Hk; apply Qle_refl | exact H2]).
    apply Hz in H1'. apply Hz' in H2'. lia.
Qed.

Lemma astype_int_truncates_witness :
  (- (7 # 2) <= inject_Z (-3))%Q /\ (inject_Z (-3) - 1 < - (7 # 2))%Q.
Proof.
  refine (proj1 (proj2 (astype_int_truncates (- (7 # 2)) (-3) eq_refl eq_refl)) _).
  vm_compute. discriminate.
Defined.

(** ** Cleaning a cleaned frame *)

Lemma assign_year_columns df source df' :
  (do s <- getitem df source ;; do v <- astype_int s ;; setitem df "Year" v) = Ok df' ->
  columns df' = if has_column df "Year" then columns df else (columns df ++ ["Year"])%list.
Proof.
  intros H. apply bind_Ok in H as (s & _ & H). apply bind_Ok in H as (v & _ & H).
  unfold setitem in H. destruct (negb (length v =? length (rows df))%nat); [discriminate|].
  now injection H as <-.
Qed.

Lemma has_column_after_year df df' c :
  columns df' = (if has_column df "Year" then columns df else (columns df ++ ["Year"])%list) ->
  c <> "Year" -> has_column df' c = has_column df c.
Proof.
  intros Hcols Hc. unfold has_column in *. rewrite Hcols.
  destruct (bool_decide ("Year" ∈ columns df)); [reflexivity|].
  apply bool_decide_ext. rewrite elem_of_app, list_elem_of_singleton. tauto.
Qed.

Lemma year_from_done source r r' :
  year_from source r r' ->
  exists z, r' !! "Year" = Some (Int z) /\ astype_int_cell (at_ r' source) = Ok z.
Proof.
  intros (z & Hz & ->). exists z. split; [apply lookup_insert_eq|].
  unfold at_. destruct (decide (source = "Year")) as [->|Hne].
  - now rewrite lookup_insert_eq.
  - rewrite lookup_insert_ne by congruence. exact Hz.
Qed.

Lemma Forall2_Forall_r {A B} (R : A -> B -> Prop) (P : B -> Prop) l l' :
  Forall2 R l l' -> (forall x y, R x y -> P y) -> Forall P l'.
Proof. induction 1; intros HP; constructor; eauto. Qed.

Lemma assign_year_fixed df source :
  has_column df source = true -> has_column df "Year" = true ->
  Forall (fun r => exists z, r !! "Year" = Some (Int z) /\
                             astype_int_cell (at_ r source) = Ok z) (rows df) ->
  (do s <- getitem df source ;; do v <- astype_int s ;; setitem df "Year" v) = Ok df.
Proof.
  intros Hs Hy Hdone. rewrite getitem_has by exact Hs. simpl.
  assert (H : exists zs,
    traverse astype_int_cell (map (fun r => at_ r source) (rows df)) = Ok zs /\
    length zs = length (rows df) /\
    set_column "Year" (rows df) (map Int zs) = rows df).
  { induction Hdone as [|r rs (z & Hz & Hcast) _ (zs & Ht & Hl & Hset)].
    - exists []. auto.
    - exists (z :: zs). simpl. rewrite Hcast, Ht. simpl.
      rewrite Hl, Hset, (insert_id r "Year" (Int z) Hz). auto. }
  destruct H as (zs & Ht & Hl & Hset). unfold astype_int. rewrite Ht. simpl.
  unfold setitem. rewrite length_map, Hl, Nat.eqb_refl. simpl.
  rewrite Hy, Hset. now destruct df.
Qed.

Lemma remove_outliers_rows df df' :
  remove_outliers df = Ok df' -> forall r, In r (rows df') -> In r (rows df).
Proof.
  intros H r Hr. apply remove_outliers_Ok in H. subst df'.
  destruct (has_column df "Area" && has_column df "Production"); [|exact Hr].
  simpl in Hr. now apply List.filter_In in Hr.
Qed.

(** After a year was assigned from [source] and outliers were removed, assigning
    the year again changes nothing. *)
Lemma assign_year_again df source df1 df' :
  source = "Crop_Year" \/ source = "Year" ->
  has_column df source = true ->
  (do s <- getitem df source ;; do v <- astype_int s ;; setitem df "Year" v) = Ok df1 ->
  remove_outliers df1 = Ok df' ->
  has_column df' "Crop_Year" = has_column df "Crop_Year" /\
  has_column df' "Year" = true /\
  (do s <- getitem df' source ;; do v <- astype_int s ;; setitem df' "Year" v) = Ok df'.
Proof.
  intros Hsrc Hs H1 H2.
  pose proof (assign_year_columns _ _ _ H1) as Hcols.
  pose proof (remove_outliers_columns _ _ H2) as Hcols'.
  destruct (assign_year_Ok _ _ _ H1) as (Hy & Hkeep & HF).
  assert (Hy' : has_column df' "Year" = true).
  { unfold has_column in *. now rewrite Hcols'. }
  assert (Hc' : has_column df' "Crop_Year" = has_column df "Crop_Year").
  { transitivity (has_column df1 "Crop_Year").
    - unfold has_column. now rewrite Hcols'.
    - apply has_column_after_year; [exact Hcols | discriminate]. }
  split; [exact Hc'|]. split; [exact Hy'|].
  apply assign_year_fixed; [|exact Hy'|].
  - destruct Hsrc as [-> | ->]; [now rewrite Hc' | exact Hy'].
  - pose proof (Forall2_Forall_r _ _ _ _ HF (year_from_done source)) as Hdone.
    apply List.Forall_forall. intros r Hr. rewrite List.Forall_forall in Hdone.
    apply Hdone. now apply (remove_outliers_rows _ _ H2).
Qed.

(** X10. Cleaning is idempotent on both surfaces: on the frame that the
    script's cleaning step or the dashboard's [load_data] returns, the same
    cleaner succeeds and returns that frame. *)
Theorem clean_idempotent df df' :
  (clean df = Ok df' -> clean df' = Ok df') /\
  (load_data df = Ok df' -> load_data df' = Ok df').
Proof.
  split; intros H.
  - unfold clean in H. apply bind_Ok in H as (df1 & H1 & H2).
    pose proof (remove_outliers_again _ _ H2) as Hagain.
    unfold clean, convert_year in *.
    destruct (has_column df "Crop_Year") eqn:Hc.
    + destruct (assign_year_again df "Crop_Year" df1 df' (or_introl eq_refl) Hc H1 H2)
        as (Hc' & Hy' & Hfix).
      rewrite Hc', Hc, Hfix. exact Hagain.
    + destruct (has_column df "Year") eqn:Hy.
      * destruct (assign_year_again df "Year" df1 df' (or_intror eq_refl) Hy H1 H2)
          as (Hc' & Hy' & Hfix).
        rewrite Hc', Hc, Hy', Hfix. exact Hagain.
      * injection H1 as <-. pose proof (remove_outliers_columns _ _ H2) as Hcols.
        unfold has_column in *. rewrite Hcols, Hc, Hy. exact Hagain.
  - unfold load_data in H. apply bind_Ok in H as (df1 & H1 & H2).
    pose proof (remove_outliers_again _ _ H2) as Hagain.
    unfold load_data.
    destruct (has_column df "Crop_Year") eqn:Hc.
    + destruct (assign_year_again df "Crop_Year" df1 df' (or_introl eq_refl) Hc H1 H2)
        as (Hc' & Hy' & Hfix).
      rewrite Hc', Hc, Hfix. exact Hagain.
    + injection H1 as <-. pose proof (remove_outliers_columns _ _ H2) as Hcols.
      unfold has_column in *. rewrite Hcols, Hc. exact Hagain.
Qed.

Lemma clean_idempotent_witness : load_data sample = Ok sample.
Proof. exact (proj2 (clean_idempotent sample_csv sample) eq_refl). Defined.

(** ** The order of group labels *)

Lemma key_compare_antisym a b : key_compare b a = CompOpp (key_compare a b).
Proof.
  destruct a, b; simpl; try reflexivity; unfold value; simpl;
    try (now rewrite <- Qcompare_antisym).
  apply String.compare_antisym.
Qed.

Lemma key_lt_trans a b c : key_lt a b -> key_lt b c -> key_lt a c.
Proof.
  unfold key_lt.
  destruct a, b, c; simpl; try discriminate; try reflexivity; unfold value; simpl;
    rewrite <- ?Qlt_alt; try (intros; eapply Qlt_trans; eassumption).
  intros H1 H2. apply OrderedTypeEx.String_as_OT.cmp_lt.
  apply OrderedTypeEx.String_as_OT.cmp_lt in H1, H2.
  eapply OrderedTypeEx.String_as_OT.lt_trans; eassumption.
Qed.


Lemma key_eq_sym a b : key_compare a b = Eq -> key_compare b a = Eq.
Proof. intros H. now rewrite key_compare_antisym, H. Qed.

Lemma key_gt_lt a b : key_compare a b = Gt -> key_lt b a.
Proof. intros H. unfold key_lt. now rewrite key_compare_antisym, H. Qed.

Lemma key_eqb_eq a b : key_eqb a b = true <-> key_compare a b = Eq.
Proof. unfold key_eqb. destruct (key_compare a b); split; congruence. Qed.

Lemma insert_key_In k l y : In y (insert_key k l) -> y = k \/ In y l.
Proof.
  induction l as [|x l IH]; simpl.
  - intros [<-|[]]. now left.
  - destruct (key_compare k x); simpl.
    + auto.
    + intros [<-|H]; auto.
    + intros [<-|H]; [auto|]. destruct (IH H); auto.
Qed.

Lemma insert_key_keeps k l y : In y l -> In y (insert_key k l).
Proof.
  induction l as [|x l IH]; simpl; [tauto|].
  destruct (key_compare k x); simpl; intros [<-|H]; auto.
Qed.

Lemma insert_key_has k l : exists y, In y (insert_key k l) /\ key_compare k y = Eq.
Proof.
  induction l as [|x l (y & Hy & He)]; simpl.
  - exists k. split; [now left|].
    destruct (key_compare k k) eqn:E; [reflexivity| |];
      pose proof (key_compare_antisym k k) as Ha; rewrite E in Ha; discriminate.
  - destruct (key_compare k x) eqn:E.
    + exists x. simpl. auto.
    + exists k. split; [now left|].
      destruct (key_compare k k) eqn:E'; [reflexivity| |];
        pose proof (key_compare_antisym k k) as Ha; rewrite E' in Ha; discriminate.
    + exists y. simpl. auto.
Qed.

Lemma insert_key_sorted k l :
  StronglySorted key_lt l -> StronglySorted key_lt (insert_key k l).
Proof.
  induction 1 as [|x l Hs IH Hall]; simpl.
  - repeat constructor.
  - destruct (key_compare k x) eqn:E.
    + now constructor.
    + constructor; [now constructor|]. constructor; [exact E|].
      eapply Forall_impl; [exact Hall|]. intros y Hy. now apply key_lt_trans with x.
    + constructor; [exact IH|]. apply List.Forall_forall. intros y Hy.
      apply insert_key_In in Hy. destruct Hy as [->|Hy].
      * now apply key_gt_lt.
      * rewrite List.Forall_forall in Hall. now apply Hall.
Qed.

Lemma group_keys_from ks : forall acc,
  StronglySorted key_lt acc ->
  Forall (fun k => isna k = false) acc ->
  let out := fold_left (fun acc k => if isna k then acc else insert_key k acc) ks acc in
  StronglySorted key_lt out /\
  Forall (fun k => isna k = false) out /\
  (forall k, In k out -> In k acc \/ In k ks) /\
  (forall k, In k acc -> In k out) /\
  (forall x, In x ks -> isna x = false -> exists k, In k out /\ key_compare x k = Eq).
Proof.
  induction ks as [|x ks IH]; intros acc Hs Hna; simpl.
  - repeat split; auto. intros x [].
  - destruct (isna x) eqn:Ex.
    + destruct (IH acc Hs Hna) as (H1 & H2 & H3 & H4 & H5).
      repeat split; auto.
      * intros k Hk. destruct (H3 k Hk); auto.
      * intros y [<-|Hy] Hy'; [congruence | now apply H5].
    + assert (Hna' : Forall (fun k => isna k = false) (insert_key x acc)).
      { apply List.Forall_forall. intros y Hy. apply insert_key_In in Hy.
        destruct Hy as [->|Hy]; [exact Ex|].
        rewrite List.Forall_forall in Hna. now apply Hna. }
      destruct (IH (insert_key x acc) (insert_key_sorted x acc Hs) Hna')
        as (H1 & H2 & H3 & H4 & H5).
      repeat split; auto.
      * intros k Hk. destruct (H3 k Hk) as [Hk'|Hk']; [|auto].
        apply insert_key_In in Hk'. destruct Hk' as [->|Hk']; auto.
      * intros k Hk. apply H4. now apply insert_key_keeps.
      * intros y [<-|Hy] Hy'; [|now apply H5].
        destruct (insert_key_has x acc) as (k & Hk & He). exists k. auto.
Qed.

Lemma group_keys_spec ks :
  StronglySorted key_lt (group_keys ks) /\
  Forall (fun k => isna k = false) (group_keys ks) /\
  (forall k, In k (group_keys ks) -> In k ks) /\
  (forall x, In x ks -> isna x = false ->
             exists k, In k (group_keys ks) /\ key_compare x k = Eq).
Proof.
  destruct (group_keys_from ks [] (SSorted_nil _) (List.Forall_nil _))
    as (H1 & H2 & H3 & _ & H5).
  repeat split; auto. intros k Hk. destruct (H3 k Hk) as [[]|]; auto.
Qed.

Lemma traverse_labels {A B} (f : A -> result B) xs ys :
  traverse (fun k => do v <- f k ;; Ok (k, v)) xs = Ok ys -> map fst ys = xs.
Proof.
  revert ys. induction xs as [|x xs IH]; simpl; intros ys H.
  - now injection H as <-.
  - apply bind_Ok in H as (y & Hy & H). apply bind_Ok in H as (ys' & Hys & H).
    injection H as <-. apply bind_Ok in Hy as (v & _ & Hy). injection Hy as <-.
    simpl. f_equal. now apply IH.
Qed.

Lemma groupby_labels agg df key metric s :
  groupby_agg agg df key metric = Ok s ->
  map fst s = group_keys (map (fun r => at_ r key) (rows df)).
Proof.
  unfold groupby_agg. intros H.
  apply bind_Ok in H as (ks & Hks & H). apply bind_Ok in H as (vs & Hvs & H).
  apply getitem_Ok in Hks. subst ks. now apply traverse_labels in H.
Qed.

(** X11. The labels of a grouped aggregate, mean or sum, are the values of the
    key column: they stand in strictly ascending order (numbers by value, text
    by code point), so no label occurs twice; none of them is missing; each is
    the key of some row; and every row whose key is not missing has its group
    among them. *)
Theorem groupby_labels_sorted df key metric s :
  groupby_mean df key metric = Ok s \/ groupby_sum df key metric = Ok s ->
  StronglySorted key_lt (map fst s) /\
  (forall k, In k (map fst s) ->
     isna k = false /\ exists r, In r (rows df) /\ at_ r key = k) /\
  (forall r, In r (rows df) -> isna (at_ r key) = false ->
     exists k, In k (map fst s) /\ key_eqb (at_ r key) k = true).
Proof.
  intros H.
  assert (Hl : map fst s = group_keys (map (fun r => at_ r key) (rows df))).
  { destruct H as [H|H]; now apply groupby_labels in H. }
  rewrite Hl.
  destruct (group_keys_spec (map (fun r => at_ r key) (rows df))) as (H1 & H2 & H3 & H4).
  split; [exact H1|]. split.
  - intros k Hk. split.
    + rewrite List.Forall_forall in H2. now apply H2.
    + apply H3, List.in_map_iff in Hk. destruct Hk as (r & Hr & Hin). eauto.
  - intros r Hr Hna.
    destruct (H4 (at_ r key)) as (k & Hk & He); [apply List.in_map_iff; eauto | exact Hna |].
    exists k. split; [exact Hk | now apply key_eqb_eq].
Qed.

Lemma groupby_labels_sorted_witness :
  StronglySorted key_lt [Int 1997; Int 1998; Int 1999].
Proof.
  refine (proj1 (groupby_labels_sorted sample "Year" "Yield"
                   [(Int 1997, Float 2); (Int 1998, Float 4); (Int 1999, Float 4)] _)).
  left. vm_compute. reflexivity.
Defined.

(** ** The values of a grouped aggregate *)





(** ** Group sums and the total *)











(** ** Ties and the reported best value *)

Lemma argmax_first s : forall best k q,
  argmax best s = Some (k, q) ->
  (best = Some (k, q) /\
   forall e q', In e s -> num (snd e) = Some q' -> (q' <= q)%Q) \/
  (exists pre v post,
     s = (pre ++ (k, v) :: post)%list /\ num v = Some q /\
     (forall e q', In e pre -> num (snd e) = Some q' -> (q' < q)%Q) /\
     (forall kb b, best = Some (kb, b) -> (b < q)%Q) /\
     (forall e q', In e post -> num (snd e) = Some q' -> (q' <= q)%Q)).
Proof.
  induction s as [|[k0 v0] s IH]; simpl; intros best k q H.
  - left. split; [exact H | intros e q' []].
  - destruct (num v0) as [q0|] eqn:E0.
    + assert (Hnew : argmax (Some (k0, q0)) s = Some (k, q) ->
                (forall kb b, best = Some (kb, b) -> (b < q0)%Q) ->
                exists pre v post,
                  (k0, v0) :: s = (pre ++ (k, v) :: post)%list /\ num v = Some q /\
                  (forall e q', In e pre -> num (snd e) = Some q' -> (q' < q)%Q) /\
                  (forall kb b, best = Some (kb, b) -> (b < q)%Q) /\
                  (forall e q', In e post -> num (snd e) = Some q' -> (q' <= q)%Q)).
      { intros Hs Hb. destruct (IH _ _ _ Hs) as [[Heq Hall]|(pre & v & post & -> & Hv & Hpre & Hbest & Hpost)].
        - injection Heq as <- <-. exists [], v0, s. repeat split; auto.
          intros e q' [].
        - specialize (Hbest k0 q0 eq_refl).
          exists ((k0, v0) :: pre), v, post. repeat split; auto.
          + intros e q' [<-|He] Hq'; [|now apply (Hpre e)].
            simpl in Hq'. rewrite E0 in Hq'. now injection Hq' as <-.
          + intros kb b Hkb. specialize (Hb kb b Hkb). lra. }
      destruct best as [[kb b]|].
      * destruct (Qltb b q0) eqn:Elt.
        -- apply Qltb_lt in Elt. right. apply Hnew; [exact H|].
           intros kb' b' [= <- <-]. exact Elt.
        -- apply Qltb_ge in Elt.
           destruct (IH _ _ _ H) as [[Heq Hall]|(pre & v & post & -> & Hv & Hpre & Hbest & Hpost)].
           ++ injection Heq as <- <-. left. split; [reflexivity|].
              intros e q' [<-|He] Hq'; [|now apply (Hall e)].
              simpl in Hq'. rewrite E0 in Hq'. now injection Hq' as <-.
           ++ right. specialize (Hbest kb b eq_refl) as Hb.
              exists ((k0, v0) :: pre), v, post. repeat split; auto.
              intros e q' [<-|He] Hq'; [|now apply (Hpre e)].
              simpl in Hq'. rewrite E0 in Hq'. injection Hq' as <-. lra.
      * right. apply Hnew; [exact H | discriminate].
    + destruct (IH _ _ _ H) as [[Heq Hall]|(pre & v & post & -> & Hv & Hpre & Hbest & Hpost)].
      * left. split; [exact Heq|].
        intros e q' [<-|He] Hq'; [simpl in Hq'; congruence | now apply (Hall e)].
      * right. exists ((k0, v0) :: pre), v, post. repeat split; auto.
        intros e q' [<-|He] Hq'; [simpl in Hq'; congruence | now apply (Hpre e)].
Qed.

Lemma idxmax_position s k :
  idxmax s = Ok k -> has_number s ->
  exists pre v post q,
    s = (pre ++ (k, v) :: post)%list /\ num v = Some q /\
    (forall e q', In e pre -> num (snd e) = Some q' -> (q' < q)%Q) /\
    (forall e q', In e post -> num (snd e) = Some q' -> (q' <= q)%Q).
Proof.
  intros H (k1 & v1 & Hin1 & Hnum1).
  assert (Hk : argmax None s = None \/ exists q, argmax None s = Some (k, q)).
  { unfold idxmax in H. destruct s as [|e s]; [discriminate|].
    destruct (existsb is_text (map snd (e :: s))); [discriminate|].
    destruct (argmax None (e :: s)) as [[k' q]|]; injection H as <-; eauto. }
  destruct Hk as [E|[q E]].
  - apply argmax_None in E. destruct E as [_ Hall].
    unfold is_number in Hnum1. now rewrite (Hall _ _ Hin1) in Hnum1.
  - apply argmax_first in E.
    destruct E as [[E _]|(pre & v & post & Hs & Hv & Hpre & _ & Hpost)]; [discriminate|].
    exists pre, v, post, q. auto.
Qed.

Lemma sorted_after {A} (R : A -> A -> Prop) l1 x l2 :
  StronglySorted R (l1 ++ x :: l2) -> Forall (R x) l2.
Proof.
  induction l1 as [|y l1 IH]; simpl; intros H; inversion H; subst; auto.
Qed.

(** X14. Among groups that share the greatest mean the "best" query answers
    with the first label in ascending order: every other group has a smaller
    mean, or the same mean and a label that orders after the answer. *)
Theorem best_of_ties_is_first_label df key metric agg k :
  groupby_mean df key metric = Ok agg ->
  idxmax agg = Ok k ->
  has_number agg ->
  exists v q, In (k, v) agg /\ num v = Some q /\
    forall k' v' q', In (k', v') agg -> num v' = Some q' ->
      (q' < q)%Q \/ (k', v') = (k, v) \/ ((q' <= q)%Q /\ key_lt k k').
Proof.
  intros Hagg Hmax Hnum.
  destruct (idxmax_position _ _ Hmax Hnum) as (pre & v & post & q & Hs & Hv & Hpre & Hpost).
  pose proof (groupby_labels _ _ _ _ _ Hagg) as Hl.
  destruct (group_keys_spec (map (fun r => at_ r key) (rows df))) as (Hsorted & _).
  rewrite <- Hl, Hs, map_app in Hsorted. simpl in Hsorted.
  apply sorted_after in Hsorted.
  exists v, q. split; [rewrite Hs; apply in_elt|]. split; [exact Hv|].
  intros k' v' q' Hin Hq'. rewrite Hs in Hin. apply in_app_or in Hin.
  destruct Hin as [Hin|[Heq|Hin]].
  - left. now apply (Hpre (k', v')).
  - right. left. now symmetry.
  - right. right. split; [now apply (Hpost (k', v'))|].
    rewrite List.Forall_forall in Hsorted. apply Hsorted.
    apply List.in_map_iff. exists (k', v'). auto.
Qed.

Lemma best_of_ties_is_first_label_witness :
  exists v q, In (Str "Bihar", v)
                 [(Str "Assam", Float 2); (Str "Bihar", Float 4); (Str "Kerala", Float 4)] /\
    num v = Some q /\
    forall k' v' q',
      In (k', v') [(Str "Assam", Float 2); (Str "Bihar", Float 4); (Str "Kerala", Float 4)] ->
      num v' = Some q' ->
      (q' < q)%Q \/ (k', v') = (Str "Bihar", v) \/ ((q' <= q)%Q /\ key_lt (Str "Bihar") k').
Proof.
  refine (best_of_ties_is_first_label sample "State" "Yield" _ (Str "Bihar") _ _ _).
  - vm_compute. reflexivity.
  - reflexivity.
  - exists (Str "Assam"), (Float 2). split; [now left | reflexivity].
Defined.

Lemma dropna_filter (s : list cell) vs :
  dropna s = Ok vs -> vs = List.filter is_number s.
Proof.
  revert vs. induction s as [|c s IH]; simpl; intros vs H.
  - now injection H as <-.
  - destruct c; try discriminate.
    + apply bind_Ok in H as (vs' & Hvs' & H). injection H as <-. simpl.
      f_equal. now apply IH.
    + apply bind_Ok in H as (vs' & Hvs' & H). injection H as <-. simpl.
      f_equal. now apply IH.
    + now apply IH.
Qed.

Lemma series_max_greatest (l : list cell) y :
  series_max l = Ok y ->
  (exists c, In c l /\ is_number c = true) ->
  is_number y = true /\ In y l /\
  forall c, In c l -> is_number c = true -> (value c <= value y)%Q.
Proof.
  unfold series_max, reduce. intros H (c0 & Hc0 & Hn0).
  apply bind_Ok in H as (vs & Hvs & H). apply dropna_filter in Hvs.
  assert (Hin0 : In c0 vs) by (subst vs; apply List.filter_In; auto).
  destruct vs as [|v vs']; [destruct Hin0|]. injection H as <-.
  destruct (fold_cell_max vs' v) as [Hin Hle].
  rewrite Hvs in Hin. apply List.filter_In in Hin. destruct Hin as [Hin Hnum].
  split; [exact Hnum|]. split; [exact Hin|].
  intros c Hc Hn. apply Hle. rewrite Hvs. apply List.filter_In. auto.
Qed.

(** X15. The yield printed beside the best state is that state's own mean: the
    label comes from [idxmax] and the value from [max] of the same aggregate,
    and the value equals the mean at the label.  The same holds for the top
    crop of the dashboard. *)
Theorem best_label_and_value_agree df :
  (forall k y agg, best_state df = Ok (k, y) ->
     groupby_mean df "State" "Yield" = Ok agg -> has_number agg ->
     exists v, In (k, v) agg /\ is_number v = true /\ is_number y = true /\
               (value v == value y)%Q) /\
  (forall k y agg, best_crop df = Ok (k, y) ->
     groupby_mean df "Crop" "Yield" = Ok agg -> has_number agg ->
     exists v, In (k, v) agg /\ is_number v = true /\ is_number y = true /\
               (value v == value y)%Q).
Proof.
  assert (Hmain : forall agg k y, idxmax agg = Ok k -> series_max (map snd agg) = Ok y ->
            has_number agg ->
            exists v, In (k, v) agg /\ is_number v = true /\ is_number y = true /\
                      (value v == value y)%Q).
  { intros agg k y Hk Hy Hnum.
    destruct (idxmax_Ok _ _ Hk Hnum) as (v & q & Hin & Hv & Hall).
    destruct (series_max_greatest _ _ Hy) as (Hny & Hiny & Hle).
    { destruct Hnum as (k1 & v1 & Hin1 & Hn1). exists v1.
      split; [|exact Hn1]. apply List.in_map_iff. exists (k1, v1). auto. }
    exists v. split; [exact Hin|]. unfold is_number at 1. rewrite Hv.
    split; [reflexivity|]. split; [exact Hny|].
    apply List.in_map_iff in Hiny. destruct Hiny as ([k' y'] & Hy' & Hin').
    simpl in Hy'. subst y'.
    assert (Hvq : value v = q) by (unfold value; now rewrite Hv).
    apply Qle_antisym.
    - apply Hle; [apply List.in_map_iff; exists (k, v); auto|].
      unfold is_number. now rewrite Hv.
    - rewrite Hvq. unfold is_number in Hny. unfold value.
      destruct (num y) as [qy|] eqn:Ey; [|discriminate]. simpl.
      now apply (Hall k' y). }
  split; intros k y agg H Hagg Hnum.
  - unfold best_state in H. rewrite Hagg in H. simpl in H.
    apply bind_Ok in H as (k' & Hk & H). apply bind_Ok in H as (y' & Hy & H).
    injection H as <- <-. now apply Hmain.
  - unfold best_crop in H. rewrite Hagg in H. simpl in H.
    apply bind_Ok in H as (k' & Hk & H). apply bind_Ok in H as (y' & Hy & H).
    injection H as <- <-. now apply Hmain.
Qed.

Lemma best_label_and_value_agree_witness :
  exists v, In (Str "Bihar", v)
              [(Str "Assam", Float 2); (Str "Bihar", Float 4); (Str "Kerala", Float 4)] /\
            is_number v = true /\ is_number (Float 4) = true /\
            (value v == value (Float 4))%Q.
Proof.
  refine (proj1 (best_label_and_value_agree sample) (Str "Bihar") (Float 4) _ _ _ _).
  - vm_compute. reflexivity.
  - vm_compute. reflexivity.
  - exists (Str "Assam"), (Float 2). split; [now left | reflexivity].
Defined.

(** ** The correlation and the rainfall insight *)










(** X18. The float64 that the literal [0.3] denotes is not three tenths, yet on
    every float64 coefficient the chain decides as it would with the exact
    thresholds: no float64 lies between the literal's value and three tenths. *)
Theorem insight_thresholds_exact_on_floats (m e : Z) :
  Z.abs m < 2 ^ 53 ->
  ~ (float_three_tenths == 3 # 10)%Q /\
  rainfall_impact_float (binary64 m e) = rainfall_impact (Some (Q2R (binary64 m e))).
Proof.
  intros Hm. split; [vm_compute; discriminate|].
  rewrite rainfall_impact_on_floats by exact Hm. apply rainfall_impact_Q_real.
Qed.

Lemma insight_thresholds_exact_on_floats_witness :
  ~ (float_three_tenths == 3 # 10)%Q /\
  rainfall_impact_float (binary64 5404319552844596 (-54))
  = rainfall_impact (Some (Q2R (binary64 5404319552844596 (-54)))).
Proof.
  apply insight_thresholds_exact_on_floats. vm_compute. reflexivity.
Defined.

(** ** The legend of the pie chart *)








(** ** What the aggregations raise *)







Section Aggregation.

Variable agg : list cell -> result cell.
Hypothesis agg_raise :
  forall l e, agg l = Raise e -> e = TypeError /\ Exists (fun c => is_text c = true) l.
Hypothesis agg_text :
  forall l, Exists (fun c => is_text c = true) l -> agg l = Raise TypeError.




End Aggregation.







(** ** The guards of the script and the selection that matches nothing *)












Lemma summary_statistics_empty df :
  rows df = [] ->
  has_column df "Yield" = true -> has_column df "Production" = true ->
  has_column df "Area" = true ->
  summary_statistics df = Ok (0%nat, NaN, Float 0, Float 0).
Proof.
  intros Hrows H1 H2 H3. unfold summary_statistics.
  rewrite !getitem_has by assumption. rewrite Hrows. reflexivity.
Qed.

(** X22. A selection that no row passes is not an error on the dashboard: the
    filters return the frame's columns without rows, the metrics read 0
    records, an average yield of NaN and totals of 0, and the insights report
    that there is no data, without running a query. *)
Theorem empty_selection_degrades df s c n yr :
  filters_run df s c n ->
  has_column df "Yield" = true -> has_column df "Production" = true ->
  has_column df "Area" = true ->
  (forall r, In r (rows df) -> ~ selected_row s c n yr r) ->
  exists filtered_df,
    apply_filters df s c n yr = Ok filtered_df /\
    columns filtered_df = columns df /\ rows filtered_df = [] /\
    summary_statistics filtered_df = Ok (0%nat, NaN, Float 0, Float 0) /\
    key_insights filtered_df = Ok NoData.
Proof.
  intros Hrun H1 H2 H3 Hnone.
  exists (restrict (matches s c n yr) df).
  assert (Hrows : rows (restrict (matches s c n yr) df) = []).
  { simpl. induction (rows df) as [|r rs IH]; [reflexivity|]. simpl.
    destruct (matches s c n yr r) eqn:E.
    - apply matches_iff in E. exfalso. apply (Hnone r); [now left | exact E].
    - apply IH. intros r' Hr'. apply Hnone. now right. }
  split; [now apply apply_filters_total|]. split; [reflexivity|].
  split; [exact Hrows|]. split.
  - apply summary_statistics_empty; auto.
  - unfold key_insights. now rewrite Hrows.
Qed.

Lemma empty_selection_degrades_witness :
  exists filtered_df,
    apply_filters sample "Goa" "All Crops" "All Seasons" (1997, 1999) = Ok filtered_df /\
    columns filtered_df = columns sample /\ rows filtered_df = [] /\
    summary_statistics filtered_df = Ok (0%nat, NaN, Float 0, Float 0) /\
    key_insights filtered_df = Ok NoData.
Proof.
  apply empty_selection_degrades.
  - repeat split; try reflexivity; try discriminate.
    vm_compute. constructor.
  - reflexivity.
  - reflexivity.
  - reflexivity.
  - intros r Hr [[Hs|Hs] _]; [discriminate|].
    simpl in Hr. repeat (destruct Hr as [<-|Hr]; [vm_compute in Hs; discriminate|]).
    destruct Hr.
Defined.

(** ** The insights under a selection *)

Lemma idxmax_label s k :
  idxmax s = Ok k ->
  In k (map fst s) \/ (k = NaN /\ forall k' v, In (k', v) s -> num v = None).
Proof.
  unfold idxmax. destruct s as [|e s]; [discriminate|].
  destruct (existsb is_text (map snd (e :: s))); [discriminate|].
  destruct (argmax None (e :: s)) as [[k' q]|] eqn:E; intros [= <-].
  - left. apply argmax_Some in E. destruct E as [[E|(v & Hin & _)] _]; [discriminate|].
    apply List.in_map_iff. exists (k', v). auto.
  - right. split; [reflexivity|]. now apply argmax_None in E.
Qed.

Lemma single_group agg df key metric a (label : string) :
  groupby_agg agg df key metric = Ok a ->
  (forall r, In r (rows df) -> at_ r key = Str label) ->
  forall k, In k (map fst a) -> k = Str label.
Proof.
  intros H Hall k Hk. rewrite (groupby_labels _ _ _ _ _ H) in Hk.
  destruct (group_keys_spec (map (fun r => at_ r key) (rows df))) as (_ & _ & Hin & _).
  apply Hin, List.in_map_iff in Hk. destruct Hk as (r & <- & Hr). now apply Hall.
Qed.

Lemma selected_rows df s c n yr filtered_df :
  apply_filters df s c n yr = Ok filtered_df ->
  forall r, In r (rows filtered_df) ->
    selected_label "State" s "All States" r /\
    selected_label "Crop" c "All Crops" r /\
    selected_label "Season" n "All Seasons" r.
Proof.
  intros H r Hr. apply apply_filters_Ok in H. destruct H as [-> _].
  simpl in Hr. apply List.filter_In in Hr. destruct Hr as [_ Hr].
  apply matches_iff in Hr. unfold selected_row in Hr. tauto.
Qed.

(** X23. Under a selection the insights can only name what was selected.  With
    a state selected, the best state of the filtered frame is that state, or
    NaN when no mean is a number (every yield of the selection missing); the
    same holds for the top crop under a selected crop; and with a season
    selected the most productive season is that season. *)
Theorem insights_name_the_selection df s c n yr filtered_df :
  apply_filters df s c n yr = Ok filtered_df ->
  (s <> "All States" -> forall k y, best_state filtered_df = Ok (k, y) ->
     exists agg, groupby_mean filtered_df "State" "Yield" = Ok agg /\
                 (k = Str s \/ (k = NaN /\ ~ has_number agg))) /\
  (c <> "All Crops" -> forall k y, best_crop filtered_df = Ok (k, y) ->
     exists agg, groupby_mean filtered_df "Crop" "Yield" = Ok agg /\
                 (k = Str c \/ (k = NaN /\ ~ has_number agg))) /\
  (n <> "All Seasons" -> forall k, best_season filtered_df = Ok k -> k = Str n).
Proof.
  intros Hf. pose proof (selected_rows _ _ _ _ _ _ Hf) as Hsel.
  assert (Hnone : forall (agg : Series),
            (forall k' v, In (k', v) agg -> num v = None) -> ~ has_number agg).
  { intros agg Hall (k' & v & Hin & Hnum). unfold is_number in Hnum.
    now rewrite (Hall _ _ Hin) in Hnum. }
  split; [|split].
  - intros Hs k y H. unfold best_state in H.
    apply bind_Ok in H as (agg & Hagg & H). apply bind_Ok in H as (k' & Hk & H).
    apply bind_Ok in H as (agg' & _ & H). apply bind_Ok in H as (y' & _ & H).
    injection H as <- <-. exists agg. split; [exact Hagg|].
    destruct (idxmax_label _ _ Hk) as [Hin|[-> Hall]]; [left|right; auto].
    apply (single_group _ _ _ _ _ s Hagg); [|exact Hin].
    intros r Hr. destruct (Hsel r Hr) as ([E|E] & _); [contradiction | exact E].
  - intros Hc k y H. unfold best_crop in H.
    apply bind_Ok in H as (agg & Hagg & H). apply bind_Ok in H as (k' & Hk & H).
    apply bind_Ok in H as (agg' & _ & H). apply bind_Ok in H as (y' & _ & H).
    injection H as <- <-. exists agg. split; [exact Hagg|].
    destruct (idxmax_label _ _ Hk) as [Hin|[-> Hall]]; [left|right; auto].
    apply (single_group _ _ _ _ _ c Hagg); [|exact Hin].
    intros r Hr. destruct (Hsel r Hr) as (_ & [E|E] & _); [contradiction | exact E].
  - intros Hn k H. unfold best_season in H.
    apply bind_Ok in H as (agg & Hagg & Hk).
    destruct (idxmax_label _ _ Hk) as [Hin|[-> Hall]].
    + apply (single_group _ _ _ _ _ n Hagg); [|exact Hin].
      intros r Hr. destruct (Hsel r Hr) as (_ & _ & [E|E]); [contradiction | exact E].
    + exfalso.
      pose proof (groupby_agg_values (fun m => is_number m = true) _ _ _ _ _
                    sum_is_number Hagg) as Hnum.
      destruct agg as [|[k0 v0] agg]; [discriminate|].
      inversion Hnum as [|? ? H0 _]; subst. simpl in H0. unfold is_number in H0.
      now rewrite (Hall k0 v0 (or_introl eq_refl)) in H0.
Qed.

Lemma insights_name_the_selection_witness :
  exists agg,
    groupby_mean (restrict (matches "Bihar" "All Crops" "All Seasons" (1997, 1999)) sample)
                 "State" "Yield" = Ok agg /\
    (Str "Bihar" = Str "Bihar" \/ (Str "Bihar" = NaN /\ ~ has_number agg)).
Proof.
  refine (proj1 (insights_name_the_selection sample "Bihar" "All Crops" "All Seasons"
                   (1997, 1999) _ _) _ (Str "Bihar") (Float 4) _).
  - vm_compute. reflexivity.
  - discriminate.
  - vm_compute. reflexivity.
Defined.
